(** * nomad-autoscaler: policy evaluation core

    A shallow embedding of the action model (package [strategy]), the
    policy parser and validator for Nomad scaling policies (package
    [nomad]) and the per-check evaluation of the agent (package [agent]),
    followed by the properties established about them.

    Conventions of the embedding:
    - Go's [int64] is [Z]. None of the embedded functions does arithmetic
      on counts (only comparisons and copies), so no wrap-around occurs.
    - A Go [map[string]T] is [option (gmap string T)]: [None] is the nil
      map, which can be read (every key is absent) but not written.
    - A run-time panic is the [Panic] outcome of the [result] monad.
    - An [interface{}] value of a decoded policy document is a [value]. *)

From Stdlib Require Import ZArith String List Lia.
From Stdlib Require Import DecimalString.
From stdpp Require Import gmap strings list fin_maps.

#[local] Set Warnings "-register-all".
#[local] Open Scope string_scope.
#[local] Open Scope Z_scope.

(** ** Outcomes of Go code that may panic *)

Inductive result (A : Type) : Type :=
| Ok (a : A)
| Panic (msg : string).
Arguments Ok {A} a.
Arguments Panic {A} msg.

Definition rbind {A B : Type} (r : result A) (k : A -> result B) : result B :=
  match r with
  | Ok a => k a
  | Panic msg => Panic msg
  end.

Notation "x <-r c1 ; c2" := (rbind c1 (fun x => c2))
  (at level 100, c1 at next level, right associativity).

(** A Go map: nil or allocated. *)
Definition gomap (A : Type) : Type := option (gmap string A).

(** [m[k]] with the comma-ok form: a nil map has no keys. *)
Definition mapaccess {A : Type} (m : gomap A) (k : string) : option A :=
  match m with
  | Some g => g !! k
  | None => None
  end.

Definition nil_map_panic : string := "assignment to entry in nil map".

(** [m[k] = v]: panics on a nil map. *)
Definition mapassign {A : Type} (m : gomap A) (k : string) (v : A)
  : result (gomap A) :=
  match m with
  | Some g => Ok (Some (<[k := v]> g))
  | None => Panic nil_map_panic
  end.

(** [fmt]'s [%d] verb on an integer. *)
Definition fmt_d (z : Z) : string := NilZero.string_of_int (Z.to_int z).

(** ** Package strategy: the Action model *)

Module strategy.

Definition metaKeyDryRun : string := "nomad_autoscaler.dry_run".
Definition metaKeyDryRunCount : string := "nomad_autoscaler.dry_run.count".
Definition metaKeyCountCapped : string := "nomad_autoscaler.count.capped".
Definition metaKeyCountOriginal : string := "nomad_autoscaler.count.original".
Definition metaKeyReasonHistory : string := "nomad_autoscaler.reason_history".

Definition MetaValueDryRunCount : Z := -1.

(** The dynamic types stored under [Meta]'s [interface{}] values. *)
Inductive metaval : Type :=
| MBool (b : bool)
| MInt64 (z : Z)
| MString (s : string)
| MStrings (l : list string).

Record Action : Type := mkAction {
  Count : Z;
  Reason : string;
  Error : bool;
  Meta : gomap metaval
}.

Definition withCount (a : Action) (c : Z) : Action :=
  mkAction c (Reason a) (Error a) (Meta a).
Definition withReason (a : Action) (r : string) : Action :=
  mkAction (Count a) r (Error a) (Meta a).
Definition withMeta (a : Action) (m : gomap metaval) : Action :=
  mkAction (Count a) (Reason a) (Error a) m.

(** [a.Meta[k] = v] *)
Definition setMeta (k : string) (v : metaval) (a : Action) : result Action :=
  m <-r mapassign (Meta a) k v ;
  Ok (withMeta a m).

Definition Canonicalize (a : Action) : Action :=
  match Meta a with
  | None => withMeta a (Some ∅)
  | Some _ => a
  end.

Definition SetDryRun (a : Action) : result Action :=
  a1 <-r setMeta metaKeyDryRun (MBool true) a ;
  a2 <-r setMeta metaKeyDryRunCount (MInt64 (Count a1)) a1 ;
  Ok (withCount a2 MetaValueDryRunCount).

Definition pushReason (r : string) (a : Action) : result Action :=
  let history :=
    match mapaccess (Meta a) metaKeyReasonHistory with
    | Some (MStrings historySlice) => historySlice
    | _ => []
    end in
  let history :=
    if decide (Reason a = "") then history
    else (history ++ [Reason a])%list in
  a1 <-r setMeta metaKeyReasonHistory (MStrings history) a ;
  Ok (withReason a1 r).

Definition cappedReason (oldCount newCount : Z) : string :=
  "capped count from " +:+ fmt_d oldCount +:+ " to " +:+ fmt_d newCount
    +:+ " to stay within limits".

(** The [newCount] that [CapCount] computes from [oldCount]. *)
Definition cappedCount (min max oldCount : Z) : Z :=
  if oldCount <? min then min
  else if oldCount >? max then max
  else oldCount.

Definition CapCount (min max : Z) (a : Action) : result Action :=
  if Count a =? MetaValueDryRunCount then Ok a
  else
    let oldCount := Count a in
    let newCount := cappedCount min max oldCount in
    if negb (newCount =? oldCount) then
      a1 <-r setMeta metaKeyCountCapped (MBool true) a ;
      a2 <-r setMeta metaKeyCountOriginal (MInt64 oldCount) a1 ;
      a3 <-r pushReason (cappedReason oldCount newCount) a2 ;
      Ok (withCount a3 newCount)
    else Ok a.

(** Successive calls [a.pushReason(r1); a.pushReason(r2); ...]. *)
Fixpoint pushReasons (rs : list string) (a : Action) : result Action :=
  match rs with
  | [] => Ok a
  | r :: rs' => a1 <-r pushReason r a ; pushReasons rs' a1
  end.

(** The reason history as a reader of [Meta] sees it. *)
Definition reasonHistory (a : Action) : option (list string) :=
  match mapaccess (Meta a) metaKeyReasonHistory with
  | Some (MStrings h) => Some h
  | _ => None
  end.

End strategy.

(** ** Decoded policy documents *)

(** The dynamic types behind the [interface{}] values of a decoded
    document. Numbers are integers; a number decoded as [float64] is not
    represented. *)
Inductive value : Type :=
| VNil
| VString (s : string)
| VInt (z : Z)
| VBool (b : bool)
| VList (l : list value)
| VMap (m : gmap string value).

(** [m[k]] on a [map[string]interface{}]: an absent key reads as nil. *)
Definition index (m : gomap value) (k : string) : value :=
  default VNil (mapaccess m k).

(** Insertion of one rendered entry into a list ordered by key, as [fmt]
    prints maps in key order. *)
Fixpoint insertByKey (k : string) (s : string) (l : list (string * string))
  : list (string * string) :=
  match l with
  | [] => [(k, s)]
  | (k', s') :: l' =>
      if String.leb k k' then (k, s) :: l else (k', s') :: insertByKey k s l'
  end.

Definition joinSpace (l : list string) : string :=
  String.concat " " l.

(** [fmt.Sprintf("%v", v)]. *)
Fixpoint Sprintf_v (v : value) : string :=
  match v with
  | VNil => "<nil>"
  | VString s => s
  | VInt z => fmt_d z
  | VBool b => if b then "true" else "false"
  | VList l => "[" +:+ joinSpace (List.map Sprintf_v l) +:+ "]"
  | VMap m =>
      let entries :=
        map_fold (fun k v' acc => insertByKey k (Sprintf_v v') acc) [] m in
      "map[" +:+ joinSpace (List.map (fun e => fst e +:+ ":" +:+ snd e) entries)
        +:+ "]"
  end.

(** [for k, v := range src { dst[k] = f(v) }] *)
Definition rangeAssign {A B : Type} (f : A -> B) (src : gmap string A)
    (dst : gmap string B) : gmap string B :=
  map_fold (fun k v acc => <[k := f v]> acc) dst src.

(** ** Package policy: the canonical model *)

Module policy.

(** The declarations of [Strategy], [Target], [Check] and [Policy] are
    outside the files at hand; the fields are those the parser fills and
    the agent reads, typed as in the data model. *)

(** Modelled from the spec: the declaration of [Strategy], a
    decision-plugin binding of a name and a string to string
    configuration map. *)
Record Strategy : Type := mkStrategy {
  Strategy_Name : string;
  Strategy_Config : gomap string
}.

(** Modelled from the spec: the declaration of [Target], a scale-target
    binding of a plugin name and a string to string configuration map. *)
Record Target : Type := mkTarget {
  Target_Name : string;
  Target_Config : gomap string
}.

(** Modelled from the spec: the declaration of [Check]: name, source,
    query and strategy, the strategy held by pointer. *)
Record Check : Type := mkCheck {
  Check_Name : string;
  Check_Source : string;
  Check_Query : string;
  Check_Strategy : option Strategy
}.

(** Modelled from the spec: the declaration of [Policy]: [Min] and [Max]
    are int64 bounds, the durations are integers, the target is held by
    pointer and the checks are an ordered list. *)
Record Policy : Type := mkPolicy {
  Policy_ID : string;
  Policy_Min : Z;
  Policy_Max : Z;
  Policy_Enabled : bool;
  Policy_EvaluationInterval : Z;
  Policy_Cooldown : Z;
  Policy_Target : option Target;
  Policy_Checks : list Check
}.

End policy.

(** ** go-multierror *)

Inductive error : Type :=
| Errorf (msg : string)
| MultiError (errs : list error).

(** A [*multierror.Error]: nil, or the accumulated list. *)
Definition multierror : Type := option (list error).

Definition errorsOf (r : multierror) : list error := default [] r.

(** What [Append] adds for one error: a multi-error is flattened. *)
Definition flat (e : error) : list error :=
  match e with
  | MultiError l => l
  | Errorf _ => [e]
  end.

Definition Append (r : multierror) (e : error) : multierror :=
  Some (errorsOf r ++ flat e)%list.

Definition ErrorOrNil (r : multierror) : option error :=
  match r with
  | None => None
  | Some [] => None
  | Some l => Some (MultiError l)
  end.

(** [if err != nil { result = multierror.Append(result, err) }] *)
Definition appendIfErr (r : multierror) (err : option error) : multierror :=
  match err with
  | Some e => Append r e
  | None => r
  end.

(** ** Package nomad: parsing and validating Nomad scaling policies *)

Module nomad.
Import policy.

(** The key constants of the package are declared outside the files at
    hand; they name the attributes and blocks of a policy document. *)

(** Modelled from the spec: the constant [keySource], the key of a
    check's APM source. *)
Definition keySource : string := "source".

(** Modelled from the spec: the constant [keyQuery], the key of a check's
    query. *)
Definition keyQuery : string := "query".

(** Modelled from the spec: the constant [keyEvaluationInterval], the key
    of the evaluation interval. *)
Definition keyEvaluationInterval : string := "evaluation_interval".

(** Modelled from the spec: the constant [keyTarget], the key of the
    target block. *)
Definition keyTarget : string := "target".

(** Modelled from the spec: the constant [keyChecks], the key of the
    collection of check blocks. *)
Definition keyChecks : string := "check".

(** Modelled from the spec: the constant [keyStrategy], the key of a
    check's strategy block. *)
Definition keyStrategy : string := "strategy".

(** Modelled from the spec: the constant [keyCooldown], the key of the
    cooldown. *)
Definition keyCooldown : string := "cooldown".

(** The raw document, [api.ScalingPolicy]. The validator reads [Min] and
    [Max] through pointers; the parser copies [Max] as a plain integer,
    for which an absent maximum reads as zero. *)
Record ScalingPolicy : Type := mkScalingPolicy {
  ID : string;
  Min : option Z;
  Max : option Z;
  Enabled : option bool;
  Target : gomap string;
  Policy : gomap value
}.

(** *** Parser *)

Definition parseBlock (block : value) : option (gmap string value) :=
  match block with
  | VList [VMap blockMap] => Some blockMap
  | _ => None
  end.

(** [m[k].(string)] with the comma-ok form. *)
Definition asString (v : value) : option string :=
  match v with
  | VString s => Some s
  | _ => None
  end.

Definition parseStrategy (s : value) : option policy.Strategy :=
  match s with
  | VNil => None
  | _ =>
      match parseBlock s with
      | None => None
      | Some strategyMap =>
          let configMapString :=
            match parseBlock (index (Some strategyMap) "config") with
            | Some configMap => Some (rangeAssign Sprintf_v configMap ∅)
            | None => None
            end in
          let name := default "" (asString (index (Some strategyMap) "name")) in
          Some (mkStrategy name configMapString)
      end
  end.

Definition parseTarget (targetBlock : value) (targetAttr : gomap string)
  : option policy.Target :=
  let targetMap := parseBlock targetBlock in
  match targetMap, targetAttr with
  | None, None => None
  | _, _ =>
      let configMapString : gmap string string := ∅ in
      let configMapString :=
        match targetAttr with
        | Some attr => rangeAssign id attr configMapString
        | None => configMapString
        end in
      let configMapString :=
        match targetMap with
        | Some tm =>
            match parseBlock (index (Some tm) "config") with
            | Some configMap => rangeAssign Sprintf_v configMap configMapString
            | None => configMapString
            end
        | None => configMapString
        end in
      let name := default "" (asString (index targetMap "name")) in
      Some (mkTarget name (Some configMapString))
  end.

Definition parseCheck (c : value) : option policy.Check :=
  match c with
  | VNil => None
  | _ =>
      match parseBlock c with
      | None => None
      | Some checkMap =>
          let strategy := parseStrategy (index (Some checkMap) keyStrategy) in
          let query :=
            default "" (asString (index (Some checkMap) keyQuery)) in
          let source :=
            default "" (asString (index (Some checkMap) keySource)) in
          Some (mkCheck "" source query strategy)
      end
  end.

(** The inner loop of [parseChecks] over one mapping of labels to check
    blocks; the label becomes the check's name. *)
Definition parseLabeledChecks (checkMap : gmap string value)
  : list policy.Check :=
  omap (fun kv : string * value =>
          match parseCheck (snd kv) with
          | Some check =>
              Some (mkCheck (fst kv) (Check_Source check) (Check_Query check)
                      (Check_Strategy check))
          | None => None
          end)
       (map_to_list checkMap).

Definition parseChecks (cs : value) : list policy.Check :=
  match cs with
  | VList checkInterfaceList =>
      flat_map (fun checkInterface =>
                  match checkInterface with
                  | VMap checkMap => parseLabeledChecks checkMap
                  | _ => []
                  end)
               checkInterfaceList
  | _ => []
  end.

Section ParsePolicy.
(** [time.ParseDuration], as the value it returns (zero on failure);
    the parser discards its error. *)
Variable ParseDuration : string -> Z.

Definition parsePolicy (p : ScalingPolicy) : policy.Policy :=
  let to_Min := default 0 (Min p) in
  let to_Enabled := default true (Enabled p) in
  let to_EvaluationInterval :=
    match asString (index (Policy p) keyEvaluationInterval) with
    | Some eval => ParseDuration eval
    | None => 0
    end in
  let to_Cooldown :=
    match asString (index (Policy p) keyCooldown) with
    | Some cooldown => ParseDuration cooldown
    | None => 0
    end in
  (* [Max: p.Max] is a plain copy of the integer *)
  mkPolicy (ID p) to_Min (default 0 (Max p)) to_Enabled
    to_EvaluationInterval to_Cooldown
    (parseTarget (index (Policy p) keyTarget) (Target p))
    (parseChecks (index (Policy p) keyChecks)).
End ParsePolicy.

(** *** Validator *)

Definition validator : Type := gmap string value -> string -> option error.

Definition validateCheckHorizontal : validator := fun c path =>
  let result : multierror := None in
  let result :=
    match c !! keyQuery with
    | None => Append result (Errorf (path +:+ "." +:+ keyQuery +:+ " is missing"))
    | Some _ => result
    end in
  ErrorOrNil result.

Section ValidateHorizontal.
(** The two block validators of the package are declared outside the
    files at hand and are taken as parameters here. *)
Variable validate_blocks : value -> string -> validator -> option error.
Variable validate_labeled_blocks :
  gmap string value -> string -> option Z -> option Z -> validator ->
  option error.

Definition validateChecksHorizontal : validator := fun i path =>
  validate_labeled_blocks i path (Some 1) None validateCheckHorizontal.

(** The [Min]/[Max] rules at the head of [validateHorizontalPolicy]. *)
Definition boundsErrors (policy : ScalingPolicy) : multierror :=
  let result : multierror := None in
  match Min policy with
  | None => Append result (Errorf "scaling.min is missing")
  | Some min =>
      match Max policy with
      | None => Append result (Errorf "scaling.max is missing")
      | Some max =>
          let result :=
            if min <? 0
            then Append result (Errorf "scaling.min can't be negative")
            else result in
          let result :=
            if min >? max
            then Append result
                   (Errorf "scaling.min must be smaller than scaling.max")
            else result in
          let result :=
            if max <? 0
            then Append result (Errorf "scaling.max can't be negative")
            else result in
          result
      end
  end.

Definition validateHorizontalPolicy (policy : ScalingPolicy) : option error :=
  let result := boundsErrors policy in
  let err :=
    validate_blocks (index (Policy policy) keyChecks)
      ("scaling.policy." +:+ keyChecks) validateChecksHorizontal in
  let result := appendIfErr result err in
  ErrorOrNil result.
End ValidateHorizontal.

(** Modelled from the spec: [validateBlocks] is declared outside the files
    at hand. The checks collection is a sequence of mappings from labels
    to blocks. A nil collection, a collection of another shape and an
    element that is not a mapping are violations; the validator runs once,
    on the labeled blocks of the whole collection, so that the required
    number of labeled blocks is counted over the collection. *)
Definition validateBlocks (i : value) (path : string) (v : validator)
  : option error :=
  match i with
  | VNil => Some (Errorf (path +:+ " is nil"))
  | VList l =>
      let result :=
        fold_left appendIfErr
          (imap (fun n elem =>
                   match elem with
                   | VMap _ => None
                   | _ =>
                       Some (Errorf (path +:+ "[" +:+ fmt_d (Z.of_nat n)
                                       +:+ "] must be a mapping"))
                   end) l)
          None in
      let blocks :=
        fold_left (fun acc elem =>
                     match elem with
                     | VMap elemMap => rangeAssign id elemMap acc
                     | _ => acc
                     end) l (∅ : gmap string value) in
      ErrorOrNil (appendIfErr result (v blocks path))
  | _ => Some (Errorf (path +:+ " must be a sequence of mappings"))
  end.

(** Modelled from the spec: [validateLabeledBlocks] is declared outside
    the files at hand. The number of labeled blocks must lie within the
    optional bounds; every labeled entry must be a block (a sequence of
    exactly one mapping), on which the validator runs. *)
Definition validateLabeledBlocks (i : gmap string value) (path : string)
    (min max : option Z) (v : validator) : option error :=
  let result : multierror := None in
  let result :=
    match min with
    | Some n =>
        if Z.of_nat (size i) <? n
        then Append result
               (Errorf (path +:+ " expects at least " +:+ fmt_d n +:+ " blocks"))
        else result
    | None => result
    end in
  let result :=
    match max with
    | Some n =>
        if Z.of_nat (size i) >? n
        then Append result
               (Errorf (path +:+ " expects at most " +:+ fmt_d n +:+ " blocks"))
        else result
    | None => result
    end in
  ErrorOrNil
    (fold_left appendIfErr
       (List.map (fun kv : string * value =>
               let labelPath := path +:+ "." +:+ fst kv in
               match parseBlock (snd kv) with
               | Some c => v c labelPath
               | None => Some (Errorf (labelPath +:+ " must be a block"))
               end) (map_to_list i))
       result).

(** The validator with the modelled block validators plugged in. *)
Definition validate (policy : ScalingPolicy) : option error :=
  validateHorizontalPolicy validateBlocks validateLabeledBlocks policy.

End nomad.

(** ** Package agent: evaluation of one check *)

Module agent.
Import policy strategy.

Inductive PluginType : Type :=
| PluginTypeAPM
| PluginTypeStrategy
| PluginTypeTarget.

Definition nil_deref_panic : string :=
  "runtime error: invalid memory address or nil pointer dereference".
Definition conversion_panic : string := "interface conversion".

Section Agent.
(** The metric is a [float64] that the agent only carries from the APM
    to the strategy; its type is left abstract. *)
Context {float64 : Type}.

(** The plugin interfaces and their request and response types are
    declared outside the files at hand. A call yields its error ([inl])
    or its value ([inr]). *)

(** Modelled from the spec: the declaration of the target's status, a
    count and a readiness flag. *)
Record Status : Type := mkStatus {
  Status_Count : Z;
  Status_Ready : bool
}.

(** Modelled from the spec: the declaration of the strategy's request:
    policy ID, current count, metric and strategy configuration. *)
Record RunRequest : Type := mkRunRequest {
  RunRequest_PolicyID : string;
  RunRequest_Count : Z;
  RunRequest_Metric : float64;
  RunRequest_Config : gomap string
}.

(** Modelled from the spec: the declaration of the strategy's result, a
    list of actions. *)
Record RunResponse : Type := mkRunResponse {
  Actions : list Action
}.

(** Modelled from the spec: the Target interface, [Status(config)] and
    [Scale(action, config)]. *)
Record TargetPlugin : Type := mkTargetPlugin {
  target_Status : gomap string -> error + Status;
  target_Scale : Action -> gomap string -> option error
}.

(** Modelled from the spec: the APM interface, [Query(query)]. *)
Record APMPlugin : Type := mkAPMPlugin {
  apm_Query : string -> error + float64
}.

(** Modelled from the spec: the Strategy interface, [Run(request)]. *)
Record StrategyPlugin : Type := mkStrategyPlugin {
  strategy_Run : RunRequest -> error + RunResponse
}.

(** The dynamic type of a dispensed instance's [Plugin()]. *)
Inductive Plugin : Type :=
| IsTarget (t : TargetPlugin)
| IsAPM (a : APMPlugin)
| IsStrategy (s : StrategyPlugin).

(** Modelled from the spec: the plugin host, [Dispense(name, kind)]. *)
Record PluginManager : Type := mkPluginManager {
  Dispense : string -> PluginType -> error + Plugin
}.

(** Modelled from the spec: the declaration of an evaluation event, which
    carries the policy by pointer. *)
Record Evaluation : Type := mkEvaluation {
  Evaluation_Policy : option Policy
}.

(** The calls the agent makes on its collaborators, in order. Log
    lines are not recorded. *)
Inductive event : Type :=
| EvDispense (name : string) (kind : PluginType)
| EvStatus (config : gomap string)
| EvQuery (query : string)
| EvRun (req : RunRequest)
| EvScale (action : Action) (config : gomap string)
| EvEnforceCooldown (id : string) (cooldown : Z).

(** A computation of the agent: the calls made, and its outcome. *)
Definition M (A : Type) : Type := (list event * result A)%type.

Definition ret {A : Type} (a : A) : M A := ([], Ok a).

Definition panic {A : Type} (msg : string) : M A := ([], Panic msg).

Definition bind {A B : Type} (m : M A) (k : A -> M B) : M B :=
  match m with
  | (t, Ok a) => let '(t', r) := k a in ((t ++ t')%list, r)
  | (t, Panic msg) => (t, Panic msg)
  end.

Definition call {A : Type} (e : event) (a : A) : M A := ([e], Ok a).

Notation "x <- c1 ;; c2" := (bind c1 (fun x => c2))
  (at level 100, c1 at next level, right associativity).

Definition belowLimitReason (count min : Z) : string :=
  "current count (" +:+ fmt_d count +:+ ") below limit (" +:+ fmt_d min
    +:+ ")".

Definition aboveLimitReason (count max : Z) : string :=
  "current count (" +:+ fmt_d count +:+ ") above limit (" +:+ fmt_d max
    +:+ ")".

(** The branch of [handlePolicyCheck] taken when the strategy returned
    no action: the action that brings the count back within
    [[Min, Max]], if any. *)
Definition minMaxAction (p : Policy) (count : Z) : option Action :=
  if count <? Policy_Min p then
    Some (mkAction (Policy_Min p)
            (belowLimitReason count (Policy_Min p)) false None)
  else if count >? Policy_Max p then
    Some (mkAction (Policy_Max p)
            (aboveLimitReason count (Policy_Max p)) false None)
  else None.

Definition isScale (e : event) : bool :=
  match e with
  | EvScale _ _ => true
  | _ => false
  end.

Definition isEnforceCooldown (e : event) : bool :=
  match e with
  | EvEnforceCooldown _ _ => true
  | _ => false
  end.

(** A computation that makes no [Scale] and no [EnforceCooldown] call. *)
Definition quiet {A : Type} (m : M A) : Prop :=
  forall e, In e (fst m) -> isScale e = false /\ isEnforceCooldown e = false.

Variable pluginManager : PluginManager.

Definition handlePolicyCheck (p : Policy) (c : Check) : M (list Action) :=
  match Policy_Target p, Check_Strategy c with
  | None, _ => panic nil_deref_panic
  | _, None => panic nil_deref_panic
  | Some pTarget, Some cStrategy =>
      (* dispense plugins *)
      targetPlugin <-
        call (EvDispense (Target_Name pTarget) PluginTypeTarget)
             (Dispense pluginManager (Target_Name pTarget) PluginTypeTarget) ;;
      match targetPlugin with
      | inl _ => ret []
      | inr (IsAPM _) | inr (IsStrategy _) => panic conversion_panic
      | inr (IsTarget targetInst) =>
      apmPlugin <-
        call (EvDispense (Check_Source c) PluginTypeAPM)
             (Dispense pluginManager (Check_Source c) PluginTypeAPM) ;;
      match apmPlugin with
      | inl _ => ret []
      | inr (IsTarget _) | inr (IsStrategy _) => panic conversion_panic
      | inr (IsAPM apmInst) =>
      strategyPlugin <-
        call (EvDispense (Strategy_Name cStrategy) PluginTypeStrategy)
             (Dispense pluginManager (Strategy_Name cStrategy)
                PluginTypeStrategy) ;;
      match strategyPlugin with
      | inl _ => ret []
      | inr (IsTarget _) | inr (IsAPM _) => panic conversion_panic
      | inr (IsStrategy strategyInst) =>
      (* fetch target count *)
      currentStatus <-
        call (EvStatus (Target_Config pTarget))
             (target_Status targetInst (Target_Config pTarget)) ;;
      match currentStatus with
      | inl _ => ret []
      | inr currentStatus =>
      if negb (Status_Ready currentStatus) then ret []
      else
      (* query policy's APM *)
      value <-
        call (EvQuery (Check_Query c)) (apm_Query apmInst (Check_Query c)) ;;
      match value with
      | inl _ => ret []
      | inr value =>
      (* calculate new count using policy's Strategy *)
      let req :=
        mkRunRequest (Policy_ID p) (Status_Count currentStatus) value
          (Strategy_Config cStrategy) in
      results <- call (EvRun req) (strategy_Run strategyInst req) ;;
      match results with
      | inl _ => ret []
      | inr results =>
          match Actions results with
          | [] =>
              match minMaxAction p (Status_Count currentStatus) with
              | Some a => ret (Actions results ++ [a])%list
              | None => ret []
              end
          | _ :: _ => ret (Actions results)
          end
      end end end end end end
  end.

(** The loop over the checks of a received policy in [Run]. *)
Fixpoint handleChecks (p : Policy) (cs : list Check) (actions : list Action)
  : M (list Action) :=
  match cs with
  | [] => ret actions
  | c :: cs' =>
      new <- handlePolicyCheck p c ;;
      handleChecks p cs' (actions ++ new)%list
  end.

(** One iteration of the loop of [Run] on a received evaluation; the
    collected actions are not used afterwards. *)
Definition Run_policyEval (policyEval : option Evaluation) : M unit :=
  match policyEval with
  | None => ret tt
  | Some ev =>
      match Evaluation_Policy ev with
      | None => ret tt
      | Some p =>
          _ <- handleChecks p (Policy_Checks p) [] ;;
          ret tt
      end
  end.

End Agent.

End agent.

(** ** Package agent: the Nomad client configuration *)

Module client.

(** Modelled from the spec: the declaration of the agent's Nomad settings
    (address, region, namespace, token, HTTP auth and TLS), the fields
    that [generateNomadClient] reads. *)
Record NomadConfig : Type := mkNomadConfig {
  Address : string;
  Region : string;
  Namespace : string;
  Token : string;
  HTTPAuth : string;
  CACert : string;
  CAPath : string;
  ClientCert : string;
  ClientKey : string;
  TLSServerName : string;
  SkipVerify : bool
}.

(** The fields of [api.TLSConfig] that the agent writes. *)
Record TLSConfig : Type := mkTLSConfig {
  TLS_CACert : string;
  TLS_CAPath : string;
  TLS_ClientCert : string;
  TLS_ClientKey : string;
  TLS_TLSServerName : string;
  TLS_Insecure : bool
}.

Section Client.
(** The HTTP credentials and the client are values of the Nomad API
    library; their types are left abstract. *)
Context {HttpBasicAuth Client : Type}.

(** The fields of [api.Config] that the agent writes; [HttpAuth] and
    [TLSConfig] are pointers. *)
Record Config : Type := mkConfig {
  cfg_Address : string;
  cfg_Region : string;
  cfg_Namespace : string;
  cfg_SecretID : string;
  cfg_HttpAuth : option HttpBasicAuth;
  cfg_TLSConfig : option TLSConfig
}.

(** Modelled from the spec: [nomadHelper.HTTPAuthFromString] is declared
    outside the files at hand; it turns the HTTP auth setting into
    credentials and is taken as a parameter. *)
Variable HTTPAuthFromString : string -> option HttpBasicAuth.

(** [api.DefaultConfig()] and [api.NewClient(cfg)], the latter yielding
    the message of its error or the client. *)
Variable DefaultConfig : Config.
Variable NewClient : Config -> string + Client.

(** [if s != "" { cfg.F = s }] on a field of [cfg]. *)
Definition orDefault (s : string) (d : string) : string :=
  if decide (s = "") then d else s.

(** [if s != "" { cfg.TLSConfig.F = s }]: the write goes through the
    [TLSConfig] pointer. *)
Definition setTLS (s : string) (set : TLSConfig -> TLSConfig) (cfg : Config)
  : result Config :=
  if decide (s = "") then Ok cfg
  else
    match cfg_TLSConfig cfg with
    | Some t =>
        Ok (mkConfig (cfg_Address cfg) (cfg_Region cfg) (cfg_Namespace cfg)
              (cfg_SecretID cfg) (cfg_HttpAuth cfg) (Some (set t)))
    | None => Panic agent.nil_deref_panic
    end.

(** The merge of the agent's settings into the default configuration in
    [generateNomadClient]. *)
Definition mergeNomadConfig (n : NomadConfig) (cfg : Config) : result Config :=
  (* Merge our top level configuration options in. *)
  let cfg :=
    mkConfig (orDefault (Address n) (cfg_Address cfg))
      (orDefault (Region n) (cfg_Region cfg))
      (orDefault (Namespace n) (cfg_Namespace cfg))
      (orDefault (Token n) (cfg_SecretID cfg))
      (* Merge HTTP auth. *)
      (if decide (HTTPAuth n = "") then cfg_HttpAuth cfg
       else HTTPAuthFromString (HTTPAuth n))
      (cfg_TLSConfig cfg) in
  (* Merge TLS. *)
  cfg <-r setTLS (CACert n)
            (fun t => mkTLSConfig (CACert n) (TLS_CAPath t) (TLS_ClientCert t)
                        (TLS_ClientKey t) (TLS_TLSServerName t)
                        (TLS_Insecure t)) cfg ;
  cfg <-r setTLS (CAPath n)
            (fun t => mkTLSConfig (TLS_CACert t) (CAPath n) (TLS_ClientCert t)
                        (TLS_ClientKey t) (TLS_TLSServerName t)
                        (TLS_Insecure t)) cfg ;
  cfg <-r setTLS (ClientCert n)
            (fun t => mkTLSConfig (TLS_CACert t) (TLS_CAPath t) (ClientCert n)
                        (TLS_ClientKey t) (TLS_TLSServerName t)
                        (TLS_Insecure t)) cfg ;
  cfg <-r setTLS (ClientKey n)
            (fun t => mkTLSConfig (TLS_CACert t) (TLS_CAPath t)
                        (TLS_ClientCert t) (ClientKey n)
                        (TLS_TLSServerName t) (TLS_Insecure t)) cfg ;
  cfg <-r setTLS (TLSServerName n)
            (fun t => mkTLSConfig (TLS_CACert t) (TLS_CAPath t)
                        (TLS_ClientCert t) (TLS_ClientKey t)
                        (TLSServerName n) (TLS_Insecure t)) cfg ;
  if SkipVerify n then
    match cfg_TLSConfig cfg with
    | Some t =>
        Ok (mkConfig (cfg_Address cfg) (cfg_Region cfg) (cfg_Namespace cfg)
              (cfg_SecretID cfg) (cfg_HttpAuth cfg)
              (Some (mkTLSConfig (TLS_CACert t) (TLS_CAPath t)
                       (TLS_ClientCert t) (TLS_ClientKey t)
                       (TLS_TLSServerName t) (SkipVerify n))))
    | None => Panic agent.nil_deref_panic
    end
  else Ok cfg.

(** [generateNomadClient]: the error it returns, or the client it stores
    in the agent. *)
Definition generateNomadClient (n : NomadConfig) : result (error + Client) :=
  cfg <-r mergeNomadConfig n DefaultConfig ;
  match NewClient cfg with
  | inl err =>
      Ok (inl (Errorf ("failed to instantiate Nomad client: " +:+ err)))
  | inr client => Ok (inr client)
  end.

End Client.

End client.

(** ** Sample documents and collaborators *)

Module samples.
Import policy strategy.

(** A check block with an empty query. *)
Definition doc_empty_query : nomad.ScalingPolicy :=
  nomad.mkScalingPolicy "p1" (Some 1) (Some 5) None
    (Some {[ "Job" := "web" ]})
    (Some {[ nomad.keyChecks :=
               VList [VMap {[ "cpu" :=
                 VList [VMap {[ nomad.keyQuery := VString "";
                                nomad.keyStrategy :=
                                  VList [VMap {[ "name" := VString "target-value" ]}]
                             ]}] ]}] ]}).

(** A check block with a source and a query but no strategy block. *)
Definition doc_no_strategy : nomad.ScalingPolicy :=
  nomad.mkScalingPolicy "p2" (Some 1) (Some 5) None
    (Some {[ "Job" := "web" ]})
    (Some {[ nomad.keyChecks :=
               VList [VMap {[ "cpu" :=
                 VList [VMap {[ nomad.keySource := VString "prometheus";
                                nomad.keyQuery := VString "avg(cpu)" ]}] ]}] ]}).

(** A document without bounds and without checks. *)
Definition doc_no_bounds : nomad.ScalingPolicy :=
  nomad.mkScalingPolicy "p3" None None None None None.

(** A target block whose [config] block overlaps the flat attributes. *)
Definition target_block : value :=
  VList [VMap {[ "name" := VString "nomad";
                 "config" := VList [VMap {[ "b" := VString "3";
                                            "c" := VString "4" ]}] ]}].

Definition target_attr : gomap string :=
  Some {[ "a" := "1"; "b" := "2" ]}.

(** Plugins with fixed answers: the metric type is [Z] here. *)
Definition fixedTarget (count : Z) (ready : bool) : @agent.TargetPlugin :=
  agent.mkTargetPlugin
    (fun _ => inr (agent.mkStatus count ready))
    (fun _ _ => None).

Definition fixedAPM (metric : Z) : @agent.APMPlugin Z :=
  agent.mkAPMPlugin (fun _ => inr metric).

Definition fixedStrategy (actions : list Action) : @agent.StrategyPlugin Z :=
  agent.mkStrategyPlugin (fun _ => inr (agent.mkRunResponse actions)).

Definition fixedManager (count : Z) (ready : bool) (metric : Z)
    (actions : list Action) : @agent.PluginManager Z :=
  agent.mkPluginManager
    (fun _ kind =>
       match kind with
       | agent.PluginTypeTarget => inr (agent.IsTarget (fixedTarget count ready))
       | agent.PluginTypeAPM => inr (agent.IsAPM (fixedAPM metric))
       | agent.PluginTypeStrategy =>
           inr (agent.IsStrategy (fixedStrategy actions))
       end).

Definition cpuCheck : Check :=
  mkCheck "cpu" "prometheus" "avg(cpu)"
    (Some (mkStrategy "target-value" None)).

(** A policy with [Min = 2] and [Max = 10]. *)
Definition policy_2_10 : Policy :=
  mkPolicy "p" 2 10 true 10 300
    (Some (mkTarget "nomad" (Some {[ "Job" := "web" ]})))
    [cpuCheck].

End samples.

(** * Properties *)

(** ** The action model *)

Section ActionFacts.
Import strategy.

Lemma setMeta_Some k v a m :
  Meta a = Some m -> setMeta k v a = Ok (withMeta a (Some (<[k := v]> m))).
Proof. unfold setMeta. intros ->. reflexivity. Qed.

Lemma setMeta_None k v a :
  Meta a = None -> setMeta k v a = Panic nil_map_panic.
Proof. unfold setMeta. intros ->. reflexivity. Qed.

Lemma pushReason_Some r a m :
  Meta a = Some m ->
  pushReason r a =
    Ok (mkAction (Count a) r (Error a)
          (Some (<[metaKeyReasonHistory :=
                     MStrings (default [] (reasonHistory a) ++
                               (if decide (Reason a = "") then []
                                else [Reason a]))%list]> m))).
Proof.
  intros Hm. unfold pushReason, reasonHistory.
  erewrite setMeta_Some by eassumption. simpl. do 3 f_equal.
  destruct (mapaccess (Meta a) metaKeyReasonHistory) as [[]|];
    destruct (decide (Reason a = "")); simpl; by rewrite ?app_nil_r.
Qed.

Lemma SetDryRun_Some a m :
  Meta a = Some m ->
  SetDryRun a =
    Ok (mkAction MetaValueDryRunCount (Reason a) (Error a)
          (Some (<[metaKeyDryRunCount := MInt64 (Count a)]>
                   (<[metaKeyDryRun := MBool true]> m)))).
Proof. intros Hm. unfold SetDryRun, setMeta. rewrite Hm. reflexivity. Qed.

Lemma CapCount_in_range min max a :
  cappedCount min max (Count a) = Count a -> CapCount min max a = Ok a.
Proof.
  unfold CapCount. cbv zeta. intros ->. rewrite Z.eqb_refl.
  by destruct (Count a =? MetaValueDryRunCount).
Qed.

Lemma CapCount_Some min max a m :
  Meta a = Some m -> exists a',
    CapCount min max a = Ok a' /\ Meta a' <> None /\
    Count a' = (if Count a =? MetaValueDryRunCount then Count a
                else cappedCount min max (Count a)).
Proof.
  intros Hm. unfold CapCount. cbv zeta.
  destruct (Count a =? MetaValueDryRunCount) eqn:Hdry.
  { exists a. rewrite Hm. done. }
  destruct (cappedCount min max (Count a) =? Count a) eqn:Hc; cbn [negb].
  { exists a. rewrite Hm. apply Z.eqb_eq in Hc. done. }
  erewrite setMeta_Some by eassumption. cbn [rbind].
  erewrite setMeta_Some by reflexivity. cbn [rbind].
  erewrite pushReason_Some by reflexivity. cbn [rbind].
  eexists. split; [reflexivity|]. done.
Qed.

Lemma CapCount_None min max a :
  Meta a = None ->
  CapCount min max a = Ok a \/ CapCount min max a = Panic nil_map_panic.
Proof.
  intros Hm. unfold CapCount. cbv zeta.
  destruct (Count a =? MetaValueDryRunCount); [by left|].
  destruct (cappedCount min max (Count a) =? Count a); cbn [negb]; [by left|].
  right. by rewrite setMeta_None.
Qed.

Lemma cappedCount_idem min max c :
  min <= max ->
  cappedCount min max (cappedCount min max c) = cappedCount min max c.
Proof.
  unfold cappedCount. intros Hle.
  repeat (match goal with
          | |- context [if ?b then _ else _] => destruct b eqn:?
          end); lia.
Qed.

(** History left by a run of pushes, whatever the starting action. *)
Lemma pushReasons_history rs : forall a m,
  Meta a = Some m -> rs <> [] ->
  exists a',
    pushReasons rs a = Ok a' /\
    Reason a' = List.last rs "" /\
    Count a' = Count a /\
    reasonHistory a' =
      Some (default [] (reasonHistory a) ++
            List.filter (fun r => negb (String.eqb r ""))
              (Reason a :: List.removelast rs))%list.
Proof.
  induction rs as [|r rs IH]; intros a m Hm Hne; [done|].
  cbn [pushReasons]. erewrite pushReason_Some by eassumption.
  cbn [rbind].
  set (a1 := mkAction _ _ _ _).
  assert (Hh1 : reasonHistory a1 =
            Some (default [] (reasonHistory a) ++
                  List.filter (fun r => negb (String.eqb r "")) [Reason a])%list).
  { unfold reasonHistory at 1, a1. cbn [Meta mapaccess].
    rewrite lookup_insert_eq. do 2 f_equal. cbn [List.filter].
    destruct (decide (Reason a = "")) as [->|Hr]; [done|].
    apply String.eqb_neq in Hr. by rewrite Hr. }
  destruct rs as [|r' rs'].
  { exists a1. split; [done|]. split; [done|]. split; [done|]. exact Hh1. }
  destruct (IH a1 _ eq_refl ltac:(done)) as (a' & Hrun & Hlast & Hcnt & Hhist).
  exists a'. split; [exact Hrun|]. split; [exact Hlast|]. split; [exact Hcnt|].
  rewrite Hhist, Hh1. cbn [default].
  change (List.removelast (r :: r' :: rs')) with (r :: List.removelast (r' :: rs')).
  change (Reason a1) with r.
  cbn [List.filter id]. f_equal.
  destruct (negb (String.eqb (Reason a) "")), (negb (String.eqb r ""));
    cbn [app]; rewrite <- ?app_assoc, ?app_nil_r; reflexivity.
Qed.

Lemma filter_nonempty_id (l : list string) :
  Forall (fun r => r <> "") l ->
  List.filter (fun r => negb (String.eqb r "")) l = l.
Proof.
  induction 1 as [|r l Hr _ IH]; [done|]. cbn [List.filter].
  apply String.eqb_neq in Hr. rewrite Hr. cbn. by rewrite IH.
Qed.

Lemma length_removelast_pred {A : Type} (l : list A) :
  length (List.removelast l) = (length l - 1)%nat.
Proof.
  induction l as [|x [|y l] IH]; [done..|].
  change (List.removelast (x :: y :: l)) with (x :: List.removelast (y :: l)).
  cbn [length] in *. lia.
Qed.

End ActionFacts.

Section ActionClaims.
Import strategy.

(** C7. [CapCount] on an action that carries the dry-run sentinel returns
    the action as it was, whatever the bounds: neither [Count] nor any
    [Meta] entry changes. Consequently an action marked by [SetDryRun]
    (which needs an allocated [Meta]) still has [Count = -1] after
    [CapCount]. *)
Theorem CapCount_dry_run_noop (a : Action) (min max : Z) :
  (Count a = MetaValueDryRunCount -> CapCount min max a = Ok a) /\
  (Meta a <> None ->
   exists a', SetDryRun a = Ok a' /\
              CapCount min max a' = Ok a' /\
              Count a' = -1).
Proof.
  split.
  - intros Hc. unfold CapCount. by rewrite Hc, Z.eqb_refl.
  - destruct (Meta a) as [m|] eqn:Hm; [intros _|done].
    eexists. split; [by apply SetDryRun_Some|]. split; reflexivity.
Qed.

Lemma CapCount_dry_run_noop_witness :
  CapCount 2 10 (mkAction (-1) "dry" false None)
    = Ok (mkAction (-1) "dry" false None) /\
  exists a', SetDryRun (mkAction 15 "scale up" false (Some ∅)) = Ok a' /\
             CapCount 2 10 a' = Ok a' /\ Count a' = -1.
Proof.
  split.
  - apply (CapCount_dry_run_noop (mkAction (-1) "dry" false None) 2 10).
    reflexivity.
  - apply (CapCount_dry_run_noop (mkAction 15 "scale up" false (Some ∅)) 2 10).
    simpl. discriminate.
Defined.

(** C8, as stated, fails when the bounds are inverted: with [min = 5] and
    [max = 3] a count of 0 is raised to 5 by the first call and lowered
    to 3 by the second. *)
Lemma CapCount_twice_inverted_bounds :
  ~ (forall a1 a2,
       CapCount 5 3 (mkAction 0 "" false (Some ∅)) = Ok a1 ->
       CapCount 5 3 a1 = Ok a2 ->
       Count a2 = Count a1).
Proof.
  intros H.
  specialize (H _ _ eq_refl eq_refl). vm_compute in H. discriminate.
Qed.

(** C8, amended. For bounds with [min <= max], calling [CapCount] twice
    in succession has the same outcome as calling it once: the same
    action (in particular the same [Count]), or the same panic. *)
Theorem CapCount_idempotent (a : Action) (min max : Z) :
  min <= max ->
  (a1 <-r CapCount min max a ; CapCount min max a1) = CapCount min max a.
Proof.
  intros Hle.
  destruct (Meta a) as [m|] eqn:Hm.
  - destruct (CapCount_Some min max a m Hm) as (a' & Hcap & _ & Hcnt).
    rewrite Hcap. cbn [rbind].
    destruct (Count a =? MetaValueDryRunCount) eqn:Hdry.
    + unfold CapCount. by rewrite Hcnt, Hdry.
    + apply CapCount_in_range. rewrite Hcnt. by apply cappedCount_idem.
  - destruct (CapCount_None min max a Hm) as [H|H]; rewrite H; cbn [rbind];
      [exact H | reflexivity].
Qed.

Lemma CapCount_idempotent_witness :
  (a1 <-r CapCount 2 10 (mkAction 15 "scale up" false (Some ∅)) ;
   CapCount 2 10 a1)
  = CapCount 2 10 (mkAction 15 "scale up" false (Some ∅)).
Proof.
  apply (CapCount_idempotent (mkAction 15 "scale up" false (Some ∅)) 2 10).
  lia.
Defined.

(** C9, as stated, fails for an action that already has a reason: one
    push moves that reason into the history, which then has length 1 and
    not 0. *)
Lemma pushReason_history_existing_reason :
  ~ (forall a',
       pushReasons ["capped"] (mkAction 15 "scale up" false (Some ∅)) = Ok a' ->
       exists h, reasonHistory a' = Some h /\
                 length h = (length ["capped"] - 1)%nat).
Proof.
  intros H. destruct (H _ eq_refl) as (h & Hh & Hlen).
  vm_compute in Hh. injection Hh as <-. discriminate.
Qed.

(** C9, amended. For an action with an allocated [Meta], an empty
    [Reason] and no history yet, [N >= 1] calls of [pushReason] with
    non-empty reasons succeed and leave in [Meta] the history of all
    pushed reasons but the last, in call order (length [N - 1]), and
    [Reason] equal to the last pushed value. *)
Theorem pushReason_history (a : Action) (rs : list string) :
  Meta a <> None ->
  Reason a = "" ->
  reasonHistory a = None ->
  rs <> [] ->
  Forall (fun r => r <> "") rs ->
  exists a',
    pushReasons rs a = Ok a' /\
    reasonHistory a' = Some (List.removelast rs) /\
    length (List.removelast rs) = (length rs - 1)%nat /\
    Reason a' = List.last rs "".
Proof.
  intros Hm Hr Hh Hne Hall.
  destruct (Meta a) as [m|] eqn:Hm'; [clear Hm|done].
  destruct (pushReasons_history rs a m Hm' Hne) as (a' & Hrun & Hlast & _ & Hhist).
  exists a'. split; [exact Hrun|]. split; [|split].
  - rewrite Hhist, Hh, Hr. cbn [default app List.filter String.eqb negb].
    f_equal. apply filter_nonempty_id.
    clear -Hall. induction Hall as [|r [|r' l] Hr' Hl IH]; [done..|].
    change (List.removelast (r :: r' :: l)) with (r :: List.removelast (r' :: l)).
    by constructor.
  - apply length_removelast_pred.
  - exact Hlast.
Qed.

Lemma pushReason_history_witness :
  exists a',
    pushReasons ["r1"; "r2"; "r3"] (mkAction 5 "" false (Some ∅)) = Ok a' /\
    reasonHistory a' = Some (List.removelast ["r1"; "r2"; "r3"]) /\
    length (List.removelast ["r1"; "r2"; "r3"])
      = (length ["r1"; "r2"; "r3"] - 1)%nat /\
    Reason a' = List.last ["r1"; "r2"; "r3"] "".
Proof.
  apply (pushReason_history (mkAction 5 "" false (Some ∅)) ["r1"; "r2"; "r3"]).
  - simpl. discriminate.
  - reflexivity.
  - reflexivity.
  - discriminate.
  - repeat constructor; discriminate.
Defined.

(** C10. On an action whose [Meta] is nil, [SetDryRun] panics on its
    write to the nil map, and [CapCount] panics whenever it has a cap to
    record (the count is not the sentinel and lies outside
    [[min, max]]); it returns normally otherwise. After [Canonicalize]
    [Meta] is allocated and neither method panics. *)
Theorem nil_Meta_faults (a : Action) (min max : Z) :
  Meta a = None ->
  SetDryRun a = Panic nil_map_panic /\
  (Count a <> MetaValueDryRunCount -> Count a < min \/ max < Count a ->
   CapCount min max a = Panic nil_map_panic) /\
  (Count a = MetaValueDryRunCount \/ min <= Count a <= max ->
   CapCount min max a = Ok a) /\
  Meta (Canonicalize a) = Some ∅ /\
  (exists a', SetDryRun (Canonicalize a) = Ok a') /\
  (exists a', CapCount min max (Canonicalize a) = Ok a').
Proof.
  intros Hm. split; [|split; [|split; [|split; [|split]]]].
  - unfold SetDryRun. by rewrite setMeta_None.
  - intros Hdry Hout. unfold CapCount. cbv zeta.
    apply Z.eqb_neq in Hdry. rewrite Hdry.
    assert (Hc : (cappedCount min max (Count a) =? Count a) = false).
    { apply Z.eqb_neq. unfold cappedCount.
      destruct (Count a <? min) eqn:H1; [lia|].
      destruct (Count a >? max) eqn:H2; lia. }
    rewrite Hc. cbn [negb]. by rewrite setMeta_None.
  - intros [Hdry|Hin].
    + unfold CapCount. by rewrite Hdry, Z.eqb_refl.
    + apply CapCount_in_range. unfold cappedCount.
      destruct (Count a <? min) eqn:H1; [lia|].
      destruct (Count a >? max) eqn:H2; lia.
  - unfold Canonicalize. by rewrite Hm.
  - eexists. apply (SetDryRun_Some _ ∅). unfold Canonicalize. by rewrite Hm.
  - destruct (CapCount_Some min max (Canonicalize a) ∅) as (a' & Ha' & _).
    { unfold Canonicalize. by rewrite Hm. }
    by exists a'.
Qed.

Lemma nil_Meta_faults_witness :
  SetDryRun (mkAction 15 "scale up" false None) = Panic nil_map_panic /\
  CapCount 2 10 (mkAction 15 "scale up" false None) = Panic nil_map_panic.
Proof.
  destruct (nil_Meta_faults (mkAction 15 "scale up" false None) 2 10 eq_refl)
    as (Hdry & Hcap & _).
  split; [exact Hdry|]. apply Hcap; simpl; [discriminate | lia].
Defined.

End ActionClaims.

(** ** Parser and validator *)

Section MultierrorFacts.

(** The errors an optional error contributes to an accumulator. *)
Lemma errorsOf_appendIfErr r err :
  errorsOf (appendIfErr r err) = (errorsOf r ++ from_option flat [] err)%list.
Proof. destruct err as [e|]; simpl; [done | by rewrite app_nil_r]. Qed.

Lemma errorsOf_fold_appendIfErr l : forall r,
  errorsOf (fold_left appendIfErr l r)
  = (errorsOf r ++ List.concat (List.map (from_option flat []) l))%list.
Proof.
  induction l as [|err l IH]; intros r; cbn [fold_left List.map List.concat].
  - by rewrite app_nil_r.
  - by rewrite IH, errorsOf_appendIfErr, <- app_assoc.
Qed.

Lemma ErrorOrNil_None r : ErrorOrNil r = None <-> errorsOf r = [].
Proof. destruct r as [[|e l]|]; simpl; split; intros; done. Qed.

Lemma ErrorOrNil_Some r e l :
  errorsOf r = e :: l -> ErrorOrNil r = Some (MultiError (e :: l)).
Proof. destruct r as [[|e' l']|]; simpl; intros; simplify_eq; done. Qed.

Lemma fold_appendIfErr_nil l r :
  errorsOf (fold_left appendIfErr l r) = [] ->
  errorsOf r = [] /\ forall err, In err l -> from_option flat [] err = [].
Proof.
  rewrite errorsOf_fold_appendIfErr. intros [Hr Hl]%app_eq_nil.
  split; [done|]. intros err Hin.
  induction l as [|err' l IH]; [done|]. cbn in Hl.
  apply app_eq_nil in Hl as [H1 H2]. destruct Hin as [->|Hin]; auto.
Qed.

End MultierrorFacts.

Section NomadFacts.
Import policy nomad.

Lemma rangeAssign_lookup {A B : Type} (f : A -> B) (src : gmap string A)
    (dst : gmap string B) (k : string) :
  rangeAssign f src dst !! k =
    match src !! k with
    | Some v => Some (f v)
    | None => dst !! k
    end.
Proof.
  unfold rangeAssign.
  apply (map_fold_weak_ind
           (fun r m => r !! k = match m !! k with
                                | Some v => Some (f v)
                                | None => dst !! k
                                end)).
  - by rewrite lookup_empty.
  - intros i x m r Hi IH. destruct (decide (i = k)) as [->|Hne].
    + by rewrite !lookup_insert_eq.
    + by rewrite !lookup_insert_ne.
Qed.

(** The bounds of a document that passes validation. *)
Lemma validateHorizontalPolicy_bounds vb vlb p :
  validateHorizontalPolicy vb vlb p = None ->
  exists min max, Min p = Some min /\ Max p = Some max /\
                  0 <= min <= max.
Proof.
  unfold validateHorizontalPolicy. cbv zeta.
  intros H%ErrorOrNil_None. rewrite errorsOf_appendIfErr in H.
  apply app_eq_nil in H as [H _]. revert H. unfold boundsErrors.
  destruct (Min p) as [min|]; [|discriminate].
  destruct (Max p) as [max|]; [|discriminate].
  cbv zeta.
  destruct (min <? 0) eqn:H1, (min >? max) eqn:H2, (max <? 0) eqn:H3;
    try discriminate.
  intros _. exists min, max. repeat split; lia.
Qed.

Lemma validateHorizontalPolicy_blocks vb vlb p :
  validateHorizontalPolicy vb vlb p = None ->
  from_option flat []
    (vb (index (Policy p) keyChecks) ("scaling.policy." +:+ keyChecks)
        (validateChecksHorizontal vlb)) = [].
Proof.
  unfold validateHorizontalPolicy. cbv zeta.
  intros H%ErrorOrNil_None. rewrite errorsOf_appendIfErr in H.
  by apply app_eq_nil in H as [_ H].
Qed.

(** Where a parsed check comes from. *)
Lemma parseChecks_In cs c :
  In c (parseChecks cs) ->
  exists l m x cm,
    cs = VList l /\ In (VMap m) l /\ m !! Check_Name c = Some x /\
    parseBlock x = Some cm /\
    Check_Query c = default "" (asString (index (Some cm) keyQuery)) /\
    Check_Source c = default "" (asString (index (Some cm) keySource)) /\
    Check_Strategy c = parseStrategy (index (Some cm) keyStrategy).
Proof.
  unfold parseChecks. destruct cs as [| | | |l|]; try done.
  intros (elem & Hel & Hc)%in_flat_map. destruct elem as [| | | | |m]; try done.
  unfold parseLabeledChecks in Hc.
  apply list_elem_of_In, list_elem_of_omap in Hc as ([k x] & Hkx & Hpc).
  apply elem_of_map_to_list in Hkx. cbn [fst snd] in Hpc.
  destruct (parseCheck x) as [check|] eqn:Hcheck; [|done].
  injection Hpc as <-. cbn [Check_Name Check_Query Check_Source Check_Strategy].
  unfold parseCheck in Hcheck.
  assert (Hpb : exists cm, parseBlock x = Some cm /\
            check = mkCheck ""
                      (default "" (asString (index (Some cm) keySource)))
                      (default "" (asString (index (Some cm) keyQuery)))
                      (parseStrategy (index (Some cm) keyStrategy))).
  { destruct x; try done; destruct (parseBlock _) as [cm|]; try done;
      injection Hcheck as <-; eauto. }
  destruct Hpb as (cm & Hpb & ->). exists l, m, x, cm. done.
Qed.

(** Every well-formed labeled block of the collection yields a check. *)
Lemma parseChecks_complete l m k x cm :
  In (VMap m) l -> m !! k = Some x -> parseBlock x = Some cm ->
  In (mkCheck k
        (default "" (asString (index (Some cm) keySource)))
        (default "" (asString (index (Some cm) keyQuery)))
        (parseStrategy (index (Some cm) keyStrategy)))
     (parseChecks (VList l)).
Proof.
  intros Hm Hx Hpb.
  unfold parseChecks. apply in_flat_map. exists (VMap m). split; [done|].
  unfold parseLabeledChecks. apply list_elem_of_In, list_elem_of_omap.
  exists (k, x). split; [by apply elem_of_map_to_list|].
  cbn [fst snd]. unfold parseCheck.
  assert (Hx' : x = VList [VMap cm]).
  { revert Hpb. unfold parseBlock.
    destruct x as [| | | |[|[| | | | |cm'] [|]]|]; try done.
    by intros [= ->]. }
  subst x. reflexivity.
Qed.

(** [parseStrategy] yields a strategy exactly on a well-formed block, and
    reads its name from the block. *)
Lemma parseStrategy_block s :
  match parseBlock s with
  | Some sm =>
      exists st, parseStrategy s = Some st /\
                 Strategy_Name st
                 = default "" (asString (index (Some sm) "name"))
  | None => parseStrategy s = None
  end.
Proof.
  unfold parseStrategy.
  destruct s as [| | | |l|]; try reflexivity.
  destruct (parseBlock (VList l)) as [sm|]; [|reflexivity].
  eexists. split; reflexivity.
Qed.

End NomadFacts.

Section NomadClaims.
Import policy nomad.

(** C2. When [Min] is absent the bounds rules record the single violation
    "scaling.min is missing", whether or not [Max] is present, and the
    reported error consists of that violation followed by whatever the
    validation of the check blocks reports: "max is missing" and the
    negativity and ordering rules are not evaluated. This holds for any
    block validators. *)
Theorem validate_min_missing
    (vb : value -> string -> validator -> option error)
    (vlb : gmap string value -> string -> option Z -> option Z ->
           validator -> option error)
    (p : ScalingPolicy) :
  Min p = None ->
  boundsErrors p = Some [Errorf "scaling.min is missing"] /\
  validateHorizontalPolicy vb vlb p =
    Some (MultiError
            (Errorf "scaling.min is missing" ::
             from_option flat []
               (vb (index (Policy p) keyChecks)
                   ("scaling.policy." +:+ keyChecks)
                   (validateChecksHorizontal vlb)))).
Proof.
  intros Hmin.
  assert (Hb : boundsErrors p = Some [Errorf "scaling.min is missing"]).
  { unfold boundsErrors. by rewrite Hmin. }
  split; [exact Hb|].
  unfold validateHorizontalPolicy. cbv zeta. rewrite Hb.
  apply ErrorOrNil_Some. by rewrite errorsOf_appendIfErr.
Qed.

Lemma validate_min_missing_witness :
  boundsErrors samples.doc_no_bounds
    = Some [Errorf "scaling.min is missing"] /\
  validate samples.doc_no_bounds =
    Some (MultiError
            [Errorf "scaling.min is missing";
             Errorf "scaling.policy.check is nil"]).
Proof.
  apply (validate_min_missing validateBlocks validateLabeledBlocks
           samples.doc_no_bounds).
  reflexivity.
Defined.




(** C6. When the target block and its [config] block are well formed,
    the parsed target's [Config] holds, for every key, the rendered
    value of the block when the block has the key and the attribute's
    value otherwise: every key of either source is present and the
    block wins on a key of both. In particular attributes
    [{a: 1, b: 2}] and block [{b: 3, c: 4}] give [{a: 1, b: 3, c: 4}]. *)
Theorem parseTarget_merge (targetBlock : value) (targetAttr : gomap string)
    (tm cm : gmap string value) :
  parseBlock targetBlock = Some tm ->
  parseBlock (index (Some tm) "config") = Some cm ->
  (exists cfg : gmap string string,
     parseTarget targetBlock targetAttr =
       Some (mkTarget (default "" (asString (index (Some tm) "name")))
               (Some cfg)) /\
     (forall k, cfg !! k = match cm !! k with
                           | Some v => Some (Sprintf_v v)
                           | None => mapaccess targetAttr k
                           end) /\
     (forall k, is_Some (mapaccess targetAttr k) -> is_Some (cfg !! k)) /\
     (forall k, is_Some (cm !! k) -> is_Some (cfg !! k))) /\
  parseTarget samples.target_block samples.target_attr =
    Some (mkTarget "nomad" (Some {[ "a" := "1"; "b" := "3"; "c" := "4" ]})).
Proof.
  intros Htm Hcm. split; [|vm_compute; reflexivity].
  unfold parseTarget. cbv zeta. rewrite Htm, Hcm.
  set (cfg0 := match targetAttr with
               | Some attr => rangeAssign id attr ∅
               | None => ∅
               end).
  assert (H0 : forall k, cfg0 !! k = mapaccess targetAttr k).
  { intros k. unfold cfg0. destruct targetAttr as [attr|]; simpl; [|done].
    rewrite rangeAssign_lookup. by destruct (attr !! k). }
  assert (Hl : forall k, rangeAssign Sprintf_v cm cfg0 !! k =
                 match cm !! k with
                 | Some v => Some (Sprintf_v v)
                 | None => mapaccess targetAttr k
                 end).
  { intros k. rewrite rangeAssign_lookup, H0. done. }
  exists (rangeAssign Sprintf_v cm cfg0). split; [|split; [|split]].
  - by destruct targetAttr.
  - exact Hl.
  - intros k Hk. rewrite Hl. destruct (cm !! k); [eauto | done].
  - intros k [v Hk]. rewrite Hl, Hk. eauto.
Qed.

Lemma parseTarget_merge_witness :
  exists cfg : gmap string string,
    parseTarget samples.target_block (Some {[ "b" := "9" ]}) =
      Some (mkTarget "nomad" (Some cfg)) /\
    cfg !! "b" = Some "3" /\ cfg !! "c" = Some "4".
Proof.
  destruct (parseTarget_merge samples.target_block (Some {[ "b" := "9" ]})
              {[ "name" := VString "nomad";
                 "config" := VList [VMap {[ "b" := VString "3";
                                            "c" := VString "4" ]}] ]}
              {[ "b" := VString "3"; "c" := VString "4" ]}
              eq_refl eq_refl) as [(cfg & Hp & Hl & _) _].
  exists cfg. split; [exact Hp|]. rewrite !Hl. split; reflexivity.
Defined.

(** C4, as stated, fails: a check block with a source and a query but no
    strategy block passes this validation, which has no rule on the
    strategy, and its parsed check has a nil [Strategy]. *)
Lemma validated_check_nil_strategy :
  ~ (validate samples.doc_no_strategy = None ->
     forall c,
       In c (Policy_Checks (parsePolicy (fun _ => 0) samples.doc_no_strategy)) ->
       Check_Strategy c <> None).
Proof.
  intros H.
  apply (H eq_refl (mkCheck "cpu" "prometheus" "avg(cpu)" None)).
  - vm_compute. left. reflexivity.
  - reflexivity.
Qed.

(** C4, amended. Whatever the block validators, for a document that
    passes validation the parsed checks and the well-formed labeled
    blocks of the checks collection correspond, and the [Strategy] of a
    parsed check is non-nil exactly when the strategy key of its block
    holds a well-formed block (a sequence of one mapping); its name is
    then the [name] of that block when it is a string and the empty
    string otherwise. When the strategy key is absent or holds anything
    else, the parsed [Strategy] is nil. *)
Theorem validated_check_strategy
    (vb : value -> string -> validator -> option error)
    (vlb : gmap string value -> string -> option Z -> option Z ->
           validator -> option error)
    (ParseDuration : string -> Z) (p : ScalingPolicy) :
  validateHorizontalPolicy vb vlb p = None ->
  (forall c,
     In c (Policy_Checks (parsePolicy ParseDuration p)) ->
     exists (l : list value) (m : gmap string value) (x : value)
            (cm : gmap string value),
       index (Policy p) keyChecks = VList l /\
       In (VMap m) l /\
       m !! Check_Name c = Some x /\
       parseBlock x = Some cm /\
       match parseBlock (index (Some cm) keyStrategy) with
       | Some sm =>
           exists st, Check_Strategy c = Some st /\
                      Strategy_Name st
                      = default "" (asString (index (Some sm) "name"))
       | None => Check_Strategy c = None
       end) /\
  (forall (l : list value) (m : gmap string value) (k : string) (x : value)
          (cm : gmap string value),
     index (Policy p) keyChecks = VList l ->
     In (VMap m) l ->
     m !! k = Some x ->
     parseBlock x = Some cm ->
     exists c,
       In c (Policy_Checks (parsePolicy ParseDuration p)) /\
       Check_Name c = k /\
       match parseBlock (index (Some cm) keyStrategy) with
       | Some sm =>
           exists st, Check_Strategy c = Some st /\
                      Strategy_Name st
                      = default "" (asString (index (Some sm) "name"))
       | None => Check_Strategy c = None
       end).
Proof.
  intros _. split.
  - intros c Hc. unfold parsePolicy in Hc. cbn [Policy_Checks] in Hc.
    apply parseChecks_In in Hc
      as (l & m & x & cm & Hcs & Hm & Hx & Hpb & _ & _ & Hs).
    exists l, m, x, cm. repeat split; try assumption.
    rewrite Hs. apply parseStrategy_block.
  - intros l m k x cm Hcs Hm Hx Hpb.
    eexists. split; [|split].
    + unfold parsePolicy. cbn [Policy_Checks]. rewrite Hcs.
      by apply (parseChecks_complete l m k x cm).
    + reflexivity.
    + cbn [Check_Strategy]. apply parseStrategy_block.
Qed.

Lemma validated_check_strategy_witness :
  (forall c,
     In c (Policy_Checks (parsePolicy (fun _ => 0) samples.doc_no_strategy)) ->
     exists (l : list value) (m : gmap string value) (x : value)
            (cm : gmap string value),
       index (Policy samples.doc_no_strategy) keyChecks = VList l /\
       In (VMap m) l /\
       m !! Check_Name c = Some x /\
       parseBlock x = Some cm /\
       match parseBlock (index (Some cm) keyStrategy) with
       | Some sm =>
           exists st, Check_Strategy c = Some st /\
                      Strategy_Name st
                      = default "" (asString (index (Some sm) "name"))
       | None => Check_Strategy c = None
       end) /\
  (forall (l : list value) (m : gmap string value) (k : string) (x : value)
          (cm : gmap string value),
     index (Policy samples.doc_no_strategy) keyChecks = VList l ->
     In (VMap m) l ->
     m !! k = Some x ->
     parseBlock x = Some cm ->
     exists c,
       In c (Policy_Checks (parsePolicy (fun _ => 0) samples.doc_no_strategy)) /\
       Check_Name c = k /\
       match parseBlock (index (Some cm) keyStrategy) with
       | Some sm =>
           exists st, Check_Strategy c = Some st /\
                      Strategy_Name st
                      = default "" (asString (index (Some sm) "name"))
       | None => Check_Strategy c = None
       end).
Proof.
  apply (validated_check_strategy validateBlocks validateLabeledBlocks
           (fun _ => 0) samples.doc_no_strategy).
  vm_compute. reflexivity.
Defined.

End NomadClaims.

(** ** The evaluation of a check *)

Section AgentFacts.
Import policy strategy agent.
Context {float64 : Type}.
Variable pluginManager : @PluginManager float64.

Lemma quiet_nil {A : Type} (r : result A) :
  quiet (([] : list (@event float64)), r).
Proof. intros e []. Qed.

Lemma quiet_bind {A B : Type} (m : @M float64 A) (k : A -> @M float64 B) :
  quiet m -> (forall a, quiet (k a)) -> quiet (bind m k).
Proof.
  intros Hm Hk e. unfold bind. destruct m as [t [a|msg]].
  - specialize (Hk a). destruct (k a) as [t' r]. cbn [fst] in *.
    intros [H|H]%in_app_or; auto.
  - apply Hm.
Qed.

Lemma quiet_call {A : Type} (e : @event float64) (a : A) :
  isScale e = false -> isEnforceCooldown e = false -> quiet (call e a).
Proof. intros H1 H2 e' [<-|[]]. done. Qed.

Lemma handlePolicyCheck_quiet p c :
  quiet (handlePolicyCheck pluginManager p c).
Proof.
  unfold handlePolicyCheck.
  destruct (Policy_Target p) as [pTarget|], (Check_Strategy c) as [cStrategy|];
    try apply quiet_nil.
  repeat first
    [ apply quiet_nil
    | apply quiet_bind; [by apply quiet_call|intros ?]
    | match goal with
      | |- quiet (match ?x with _ => _ end) => destruct x
      | |- quiet (if ?x then _ else _) => destruct x
      end ].
Qed.

(** A check whose [Strategy] is nil cannot be evaluated: the first read of
    [c.Strategy.Name] panics before any plugin is called. *)
Lemma handlePolicyCheck_nil_strategy p c :
  Check_Strategy c = None ->
  handlePolicyCheck pluginManager p c = ([], Panic nil_deref_panic).
Proof.
  intros Hs. unfold handlePolicyCheck. rewrite Hs.
  by destruct (Policy_Target p).
Qed.

Lemma handleChecks_quiet p cs : forall actions,
  quiet (handleChecks pluginManager p cs actions).
Proof.
  induction cs as [|c cs IH]; intros actions; cbn [handleChecks].
  - apply quiet_nil.
  - apply quiet_bind; [apply handlePolicyCheck_quiet | intros ?; apply IH].
Qed.

Lemma Run_policyEval_quiet policyEval :
  quiet (Run_policyEval pluginManager policyEval).
Proof.
  unfold Run_policyEval. destruct policyEval as [[[p|]]|]; try apply quiet_nil.
  apply quiet_bind; [apply handleChecks_quiet | intros ?; apply quiet_nil].
Qed.

End AgentFacts.

Section AgentClaims.
Import policy strategy agent.

(** C5. When the plugins are dispensed, the target is ready with a
    current count, the query succeeds and the strategy returns no
    action, the check yields exactly one action with [Count = Min] and
    the below-limit reason if the count is below [Min]; else exactly one
    action with [Count = Max] and the above-limit reason if the count is
    above [Max]; else no action. *)
Theorem minMax_synthesis {float64 : Type} (pm : @PluginManager float64)
    (p : Policy) (c : Check) (pTarget : Target) (cStrategy : Strategy)
    (targetInst : TargetPlugin) (apmInst : @APMPlugin float64)
    (strategyInst : @StrategyPlugin float64) (count : Z) (value : float64) :
  Policy_Target p = Some pTarget ->
  Check_Strategy c = Some cStrategy ->
  Dispense pm (Target_Name pTarget) PluginTypeTarget
    = inr (IsTarget targetInst) ->
  Dispense pm (Check_Source c) PluginTypeAPM = inr (IsAPM apmInst) ->
  Dispense pm (Strategy_Name cStrategy) PluginTypeStrategy
    = inr (IsStrategy strategyInst) ->
  target_Status targetInst (Target_Config pTarget)
    = inr (mkStatus count true) ->
  apm_Query apmInst (Check_Query c) = inr value ->
  strategy_Run strategyInst
    (mkRunRequest (Policy_ID p) count value (Strategy_Config cStrategy))
    = inr (mkRunResponse []) ->
  snd (handlePolicyCheck pm p c) =
    Ok (if count <? Policy_Min p then
          [mkAction (Policy_Min p)
             (belowLimitReason count (Policy_Min p)) false None]
        else if count >? Policy_Max p then
          [mkAction (Policy_Max p)
             (aboveLimitReason count (Policy_Max p)) false None]
        else []).
Proof.
  intros Ht Hs Hdt Hda Hds Hst Hq Hrun.
  unfold handlePolicyCheck. rewrite Ht, Hs.
  unfold call, bind. rewrite Hdt, Hda, Hds, Hst. cbn [Status_Ready negb Status_Count].
  rewrite Hq, Hrun. cbn [Actions]. unfold minMaxAction.
  destruct (count <? Policy_Min p); [reflexivity|].
  destruct (count >? Policy_Max p); reflexivity.
Qed.

Lemma minMax_synthesis_witness :
  snd (handlePolicyCheck (samples.fixedManager 1 true 80 [])
         samples.policy_2_10 samples.cpuCheck)
  = Ok [mkAction 2 "current count (1) below limit (2)" false None] /\
  snd (handlePolicyCheck (samples.fixedManager 12 true 80 [])
         samples.policy_2_10 samples.cpuCheck)
  = Ok [mkAction 10 "current count (12) above limit (10)" false None] /\
  snd (handlePolicyCheck (samples.fixedManager 5 true 80 [])
         samples.policy_2_10 samples.cpuCheck)
  = Ok [].
Proof.
  split; [|split].
  - apply (minMax_synthesis (samples.fixedManager 1 true 80 [])
             samples.policy_2_10 samples.cpuCheck
             (mkTarget "nomad" (Some {[ "Job" := "web" ]}))
             (mkStrategy "target-value" None)
             (samples.fixedTarget 1 true) (samples.fixedAPM 80)
             (samples.fixedStrategy []) 1 80); reflexivity.
  - apply (minMax_synthesis (samples.fixedManager 12 true 80 [])
             samples.policy_2_10 samples.cpuCheck
             (mkTarget "nomad" (Some {[ "Job" := "web" ]}))
             (mkStrategy "target-value" None)
             (samples.fixedTarget 12 true) (samples.fixedAPM 80)
             (samples.fixedStrategy []) 12 80); reflexivity.
  - apply (minMax_synthesis (samples.fixedManager 5 true 80 [])
             samples.policy_2_10 samples.cpuCheck
             (mkTarget "nomad" (Some {[ "Job" := "web" ]}))
             (mkStrategy "target-value" None)
             (samples.fixedTarget 5 true) (samples.fixedAPM 80)
             (samples.fixedStrategy []) 5 80); reflexivity.
Defined.

(** C1. With [Min = 2], [Max = 10], a ready target at count 5 and a
    strategy that asks for 15, [handlePolicyCheck] returns the strategy's
    action as it received it (count 15, [Meta] nil): it is neither
    canonicalized nor capped, and no [Scale] or [EnforceCooldown] call is
    made, by the check or by the iteration of [Run] that receives the
    policy. No evaluation ever makes such a call. *)
Theorem reconciliation_not_performed :
  let pm := samples.fixedManager 5 true 80
              [mkAction 15 "scale up" false None] in
  snd (handlePolicyCheck pm samples.policy_2_10 samples.cpuCheck)
    = Ok [mkAction 15 "scale up" false None] /\
  List.filter (fun e => isScale e || isEnforceCooldown e)
    (fst (handlePolicyCheck pm samples.policy_2_10 samples.cpuCheck)) = [] /\
  List.filter (fun e => isScale e || isEnforceCooldown e)
    (fst (Run_policyEval pm
            (Some (mkEvaluation (Some samples.policy_2_10))))) = [] /\
  (forall (float64 : Type) (m : @PluginManager float64) policyEval e,
     In e (fst (Run_policyEval m policyEval)) ->
     isScale e = false /\ isEnforceCooldown e = false).
Proof.
  cbv zeta. split; [|split; [|split]].
  - vm_compute. reflexivity.
  - vm_compute. reflexivity.
  - vm_compute. reflexivity.
  - intros float64 m policyEval. apply Run_policyEval_quiet.
Qed.

End AgentClaims.

(** * Further properties *)

(** ** The action model *)

Section ActionExtras.
Import strategy.

(** X1. [Canonicalize] is idempotent, allocates [Meta], keeps the other
    fields, and returns an action with an allocated [Meta] as it is. *)
Theorem Canonicalize_idempotent (a : Action) :
  Canonicalize (Canonicalize a) = Canonicalize a /\
  Meta (Canonicalize a) <> None /\
  Count (Canonicalize a) = Count a /\
  Reason (Canonicalize a) = Reason a /\
  Error (Canonicalize a) = Error a /\
  (Meta a <> None <-> Canonicalize a = a).
Proof.
  unfold Canonicalize. destruct a as [c r e [m|]]; cbn; repeat split; done.
Qed.

(** X2. On an action with an allocated [Meta], [SetDryRun] sets [Count] to
    the sentinel, records the dry-run flag and the count the action had,
    and leaves [Reason], [Error] and every other [Meta] entry as they
    were. *)
Theorem SetDryRun_records (a : Action) (m : gmap string metaval) :
  Meta a = Some m ->
  exists a',
    SetDryRun a = Ok a' /\
    Count a' = MetaValueDryRunCount /\
    mapaccess (Meta a') metaKeyDryRun = Some (MBool true) /\
    mapaccess (Meta a') metaKeyDryRunCount = Some (MInt64 (Count a)) /\
    Reason a' = Reason a /\
    Error a' = Error a /\
    (forall k, k <> metaKeyDryRun -> k <> metaKeyDryRunCount ->
               mapaccess (Meta a') k = m !! k).
Proof.
  intros Hm. eexists. split; [by apply SetDryRun_Some|].
  cbn [Count Meta Reason Error mapaccess]. repeat split.
  - rewrite lookup_insert_ne by done. by rewrite lookup_insert_eq.
  - by rewrite lookup_insert_eq.
  - intros k H1 H2. by rewrite !lookup_insert_ne.
Qed.

Lemma SetDryRun_records_witness :
  exists a',
    SetDryRun (mkAction 5 "scale up" false (Some {[ "k" := MString "v" ]}))
      = Ok a' /\
    Count a' = MetaValueDryRunCount /\
    mapaccess (Meta a') metaKeyDryRun = Some (MBool true) /\
    mapaccess (Meta a') metaKeyDryRunCount = Some (MInt64 5) /\
    Reason a' = "scale up" /\
    Error a' = false /\
    (forall k, k <> metaKeyDryRun -> k <> metaKeyDryRunCount ->
               mapaccess (Meta a') k
               = ({[ "k" := MString "v" ]} : gmap string metaval) !! k).
Proof.
  apply (SetDryRun_records
           (mkAction 5 "scale up" false (Some {[ "k" := MString "v" ]}))
           {[ "k" := MString "v" ]}).
  reflexivity.
Defined.

(** X3. [SetDryRun] is not idempotent on [Meta]: a second call overwrites
    the recorded count with the sentinel, so the intended count is lost. *)
Theorem SetDryRun_twice (a : Action) (m : gmap string metaval) :
  Meta a = Some m ->
  exists a1 a2,
    SetDryRun a = Ok a1 /\
    SetDryRun a1 = Ok a2 /\
    Count a2 = MetaValueDryRunCount /\
    mapaccess (Meta a2) metaKeyDryRunCount
      = Some (MInt64 MetaValueDryRunCount).
Proof.
  intros Hm. do 2 eexists.
  split; [by apply SetDryRun_Some|].
  split; [by apply SetDryRun_Some|].
  cbn [Count Meta mapaccess]. split; [done|]. by rewrite lookup_insert_eq.
Qed.

Lemma SetDryRun_twice_witness :
  exists a1 a2,
    SetDryRun (mkAction 5 "scale up" false (Some ∅)) = Ok a1 /\
    SetDryRun a1 = Ok a2 /\
    Count a2 = MetaValueDryRunCount /\
    mapaccess (Meta a2) metaKeyDryRunCount
      = Some (MInt64 MetaValueDryRunCount).
Proof.
  apply (SetDryRun_twice (mkAction 5 "scale up" false (Some ∅)) ∅).
  reflexivity.
Defined.

(** X4. With an allocated [Meta], ordered bounds and a count that is not
    the sentinel, [CapCount] succeeds and leaves the count within
    [[min, max]]. *)
Theorem CapCount_within_bounds (a : Action) (min max : Z) :
  Meta a <> None ->
  min <= max ->
  Count a <> MetaValueDryRunCount ->
  exists a', CapCount min max a = Ok a' /\ min <= Count a' <= max.
Proof.
  intros Hm Hle Hdry.
  destruct (Meta a) as [m|] eqn:Hm'; [clear Hm|done].
  destruct (CapCount_Some min max a m Hm') as (a' & Hcap & _ & Hcnt).
  exists a'. split; [exact Hcap|].
  apply Z.eqb_neq in Hdry. rewrite Hdry in Hcnt. rewrite Hcnt.
  unfold cappedCount.
  destruct (Count a <? min) eqn:H1; [lia|].
  destruct (Count a >? max) eqn:H2; lia.
Qed.

Lemma CapCount_within_bounds_witness :
  exists a', CapCount 2 10 (mkAction 15 "scale up" false (Some ∅)) = Ok a' /\
             2 <= Count a' <= 10.
Proof.
  apply (CapCount_within_bounds (mkAction 15 "scale up" false (Some ∅)) 2 10).
  - simpl. discriminate.
  - lia.
  - simpl. discriminate.
Defined.



(** X6. A count within [[min, max]] is left alone: [CapCount] returns the
    action unchanged and writes nothing, even when [Meta] is nil. *)
Theorem CapCount_in_range_unchanged (a : Action) (min max : Z) :
  min <= Count a <= max -> CapCount min max a = Ok a.
Proof.
  intros Hin. apply CapCount_in_range. unfold cappedCount.
  destruct (Count a <? min) eqn:H1; [lia|].
  destruct (Count a >? max) eqn:H2; lia.
Qed.

Lemma CapCount_in_range_unchanged_witness :
  CapCount 2 10 (mkAction 5 "scale up" false None)
  = Ok (mkAction 5 "scale up" false None).
Proof.
  apply (CapCount_in_range_unchanged (mkAction 5 "scale up" false None) 2 10).
  simpl. lia.
Defined.

(** X7. Shaping an action for a dry run, [Canonicalize] then [CapCount]
    then [SetDryRun], succeeds for every action whose count is not the
    sentinel when the bounds are ordered; the result carries the
    sentinel, and the count recorded for the dry run is the capped one,
    within [[min, max]]. *)
Theorem dry_run_after_cap (a : Action) (min max : Z) :
  min <= max ->
  Count a <> MetaValueDryRunCount ->
  exists a',
    (a1 <-r CapCount min max (Canonicalize a) ; SetDryRun a1) = Ok a' /\
    Count a' = MetaValueDryRunCount /\
    mapaccess (Meta a') metaKeyDryRun = Some (MBool true) /\
    mapaccess (Meta a') metaKeyDryRunCount
      = Some (MInt64 (cappedCount min max (Count a))) /\
    min <= cappedCount min max (Count a) <= max.
Proof.
  intros Hle Hdry.
  assert (Hcm : exists m0, Meta (Canonicalize a) = Some m0).
  { unfold Canonicalize. destruct (Meta a) eqn:E; [rewrite E|]; eauto. }
  destruct Hcm as [m0 Hm0].
  destruct (CapCount_Some min max _ m0 Hm0) as (a1 & Hcap & Hm1 & Hcnt).
  assert (Hc : Count (Canonicalize a) = Count a).
  { unfold Canonicalize. by destruct (Meta a). }
  rewrite Hc in Hcnt. apply Z.eqb_neq in Hdry. rewrite Hdry in Hcnt.
  rewrite Hcap. cbn [rbind].
  destruct (Meta a1) as [m1|] eqn:Hm1'; [|done].
  rewrite (SetDryRun_Some a1 m1 Hm1'). eexists. split; [reflexivity|].
  cbn [Count Meta mapaccess]. rewrite Hcnt.
  split; [done|].
  split; [rewrite lookup_insert_ne by done; by rewrite lookup_insert_eq|].
  split; [by rewrite lookup_insert_eq|].
  unfold cappedCount.
  destruct (Count a <? min) eqn:H1; [lia|].
  destruct (Count a >? max) eqn:H2; lia.
Qed.

Lemma dry_run_after_cap_witness :
  exists a',
    (a1 <-r CapCount 2 10 (Canonicalize (mkAction 15 "scale up" false None)) ;
     SetDryRun a1) = Ok a' /\
    Count a' = MetaValueDryRunCount /\
    mapaccess (Meta a') metaKeyDryRun = Some (MBool true) /\
    mapaccess (Meta a') metaKeyDryRunCount = Some (MInt64 10) /\
    2 <= 10 <= 10.
Proof.
  apply (dry_run_after_cap (mkAction 15 "scale up" false None) 2 10).
  - lia.
  - simpl. discriminate.
Defined.

(** X8. One [pushReason] on an action with a nil [Meta] panics; with an
    allocated [Meta] it succeeds, sets [Reason], keeps [Count], [Error]
    and every other [Meta] entry, and stores as history the previous
    list (empty when the entry was absent or not a list of strings)
    followed by the previous reason when that was not empty. *)
Theorem pushReason_effect (r : string) (a : Action) :
  match Meta a with
  | None => pushReason r a = Panic nil_map_panic
  | Some m =>
      exists a',
        pushReason r a = Ok a' /\
        Reason a' = r /\ Count a' = Count a /\ Error a' = Error a /\
        reasonHistory a' =
          Some (default [] (reasonHistory a) ++
                (if decide (Reason a = "") then [] else [Reason a]))%list /\
        (forall k, k <> metaKeyReasonHistory ->
                   mapaccess (Meta a') k = m !! k)
  end.
Proof.
  destruct (Meta a) as [m|] eqn:Hm.
  - eexists. split; [by apply pushReason_Some|].
    cbn [Reason Count Error Meta mapaccess]. repeat split.
    + unfold reasonHistory at 1. cbn [Meta mapaccess].
      by rewrite lookup_insert_eq.
    + intros k Hk. by rewrite lookup_insert_ne.
  - unfold pushReason. by rewrite setMeta_None.
Qed.

(** X9. A run of [N >= 1] pushes on an action with an allocated [Meta]
    succeeds, keeps [Count], leaves [Reason] equal to the last pushed
    value, and leaves as history the previous history followed by the
    non-empty ones among the starting reason and all pushed reasons but
    the last, in order. *)
Theorem pushReason_sequence (a : Action) (rs : list string) :
  Meta a <> None ->
  rs <> [] ->
  exists a',
    pushReasons rs a = Ok a' /\
    Reason a' = List.last rs "" /\
    Count a' = Count a /\
    reasonHistory a' =
      Some (default [] (reasonHistory a) ++
            List.filter (fun r => negb (String.eqb r ""))
              (Reason a :: List.removelast rs))%list.
Proof.
  intros Hm Hne. destruct (Meta a) as [m|] eqn:Hm'; [|done].
  by apply (pushReasons_history rs a m).
Qed.

Lemma pushReason_sequence_witness :
  exists a',
    pushReasons ["r1"; ""; "r3"]
      (mkAction 5 "r0" false
         (Some {[ metaKeyReasonHistory := MStrings ["old"] ]})) = Ok a' /\
    Reason a' = "r3" /\
    Count a' = 5 /\
    reasonHistory a' = Some ["old"; "r0"; "r1"].
Proof.
  destruct (pushReason_sequence
              (mkAction 5 "r0" false
                 (Some {[ metaKeyReasonHistory := MStrings ["old"] ]}))
              ["r1"; ""; "r3"])
    as (a' & Hrun & Hreason & Hcount & Hhist).
  - simpl. discriminate.
  - discriminate.
  - exists a'. split; [exact Hrun|]. split; [exact Hreason|].
    split; [exact Hcount|]. rewrite Hhist. vm_compute. reflexivity.
Defined.

End ActionExtras.

(** ** Parser and validator *)

Section ParserExtras.
Import policy nomad.

Lemma rangeAssign_id_empty (g : gmap string string) : rangeAssign id g ∅ = g.
Proof.
  apply map_eq. intros k. rewrite rangeAssign_lookup, lookup_empty.
  by destruct (g !! k).
Qed.

(** X10. [parseTarget] returns nil exactly when the target block is not a
    well-formed block and the attribute map is nil; a target it returns
    always has an allocated [Config]. *)
Theorem parseTarget_nil_iff (targetBlock : value) (targetAttr : gomap string) :
  (parseTarget targetBlock targetAttr = None <->
   parseBlock targetBlock = None /\ targetAttr = None) /\
  (forall t, parseTarget targetBlock targetAttr = Some t ->
             Target_Config t <> None).
Proof.
  unfold parseTarget. cbv zeta.
  destruct (parseBlock targetBlock) as [tm|], targetAttr as [attr|];
    (split; [split; [try done; by intros [??] | try done; by intros [??]]
            | intros t Ht; try done; by injection Ht as <-]).
Qed.

(** X11. Without a well-formed [config] block (the target block is
    malformed and attributes are given, or the target block has no
    well-formed [config]), the parsed target's [Config] is exactly the
    attribute map, empty when that is nil, and its name is the block's
    [name] when that is a string and empty otherwise. *)
Theorem parseTarget_attributes_only (targetBlock : value)
    (targetAttr : gomap string) :
  match parseBlock targetBlock with
  | Some tm => parseBlock (index (Some tm) "config") = None
  | None => targetAttr <> None
  end ->
  parseTarget targetBlock targetAttr =
    Some (mkTarget
            (default "" (asString (index (parseBlock targetBlock) "name")))
            (Some (default ∅ targetAttr))).
Proof.
  unfold parseTarget. cbv zeta.
  destruct (parseBlock targetBlock) as [tm|] eqn:Htm.
  - intros ->. destruct targetAttr as [attr|]; cbn [default];
      by rewrite ?rangeAssign_id_empty.
  - destruct targetAttr as [attr|]; [intros _|done]. cbn [default].
    by rewrite rangeAssign_id_empty.
Qed.

Lemma parseTarget_attributes_only_witness :
  parseTarget (VString "nomad") (Some {[ "Job" := "web" ]}) =
    Some (mkTarget "" (Some {[ "Job" := "web" ]})) /\
  parseTarget (VList [VMap {[ "name" := VString "nomad" ]}]) None =
    Some (mkTarget "nomad" (Some ∅)).
Proof.
  split.
  - rewrite (parseTarget_attributes_only (VString "nomad")
               (Some {[ "Job" := "web" ]})); [reflexivity|].
    simpl. discriminate.
  - rewrite (parseTarget_attributes_only
               (VList [VMap {[ "name" := VString "nomad" ]}]) None);
      reflexivity.
Defined.

(** X12. [parseStrategy] returns nil exactly when its argument is not a
    well-formed block. Otherwise the name is the block's [name] when that
    is a string (empty otherwise), and [Config] is nil when the block has
    no well-formed [config] block and else holds exactly the keys of that
    block, each with its value rendered by [%v]. *)
Theorem parseStrategy_spec (s : value) :
  match parseBlock s with
  | None => parseStrategy s = None
  | Some sm =>
      exists st,
        parseStrategy s = Some st /\
        Strategy_Name st = default "" (asString (index (Some sm) "name")) /\
        match parseBlock (index (Some sm) "config") with
        | None => Strategy_Config st = None
        | Some cm =>
            exists g : gmap string string,
              Strategy_Config st = Some g /\
              forall k, g !! k = Sprintf_v <$> cm !! k
        end
  end.
Proof.
  unfold parseStrategy.
  destruct s as [| | | |l|]; try reflexivity.
  destruct (parseBlock (VList l)) as [sm|]; [|reflexivity].
  eexists. split; [reflexivity|]. split; [reflexivity|].
  cbn [Strategy_Config].
  destruct (parseBlock (index (Some sm) "config")) as [cm|]; [|reflexivity].
  eexists. split; [reflexivity|].
  intros k. rewrite rangeAssign_lookup, lookup_empty.
  by destruct (cm !! k).
Qed.

(** X13. The parsed checks are exactly the well-formed labeled blocks of
    the mappings of the collection: a check is in the result if and only
    if some mapping of the sequence maps its name to a well-formed block
    from which its source, query and strategy are read. Entries of any
    other shape, and a collection that is not a sequence, contribute
    nothing. *)
Theorem parseChecks_iff (cs : value) (c : Check) :
  In c (parseChecks cs) <->
  exists l m x cm,
    cs = VList l /\ In (VMap m) l /\ m !! Check_Name c = Some x /\
    parseBlock x = Some cm /\
    c = mkCheck (Check_Name c)
          (default "" (asString (index (Some cm) keySource)))
          (default "" (asString (index (Some cm) keyQuery)))
          (parseStrategy (index (Some cm) keyStrategy)).
Proof.
  split.
  - intros Hc.
    destruct (parseChecks_In cs c Hc)
      as (l & m & x & cm & Hcs & Hm & Hx & Hpb & Hq & Hsrc & Hs).
    exists l, m, x, cm. repeat split; try assumption.
    destruct c as [n src q st]. cbn in *. by subst.
  - intros (l & m & x & cm & -> & Hm & Hx & Hpb & Hc).
    unfold parseChecks. apply in_flat_map. exists (VMap m). split; [done|].
    unfold parseLabeledChecks. apply list_elem_of_In, list_elem_of_omap.
    exists (Check_Name c, x). split; [by apply elem_of_map_to_list|].
    cbn [fst snd]. unfold parseCheck.
    assert (Hx' : x = VList [VMap cm]).
    { revert Hpb. unfold parseBlock.
      destruct x as [| | | |[|[| | | | |cm'] [|]]|]; try done.
      by intros [= ->]. }
    subst x. destruct c as [n src q st]. cbn [Check_Name] in *.
    injection Hc as -> -> ->. reflexivity.
Qed.

(** X14. The checks parsed from a collection that consists of one mapping
    have pairwise distinct names. *)
Theorem parseChecks_names_distinct (m : gmap string value) :
  List.NoDup (List.map Check_Name (parseChecks (VList [VMap m]))).
Proof.
  unfold parseChecks. cbn [flat_map]. rewrite app_nil_r.
  unfold parseLabeledChecks.
  pose proof (NoDup_fst_map_to_list m) as Hnd.
  induction (map_to_list m) as [|[k x] l IH]; cbn [omap list_omap].
  { constructor. }
  apply NoDup_cons in Hnd as [Hk Hnd]. specialize (IH Hnd).
  cbn [fst snd]. destruct (parseCheck x) as [check|]; [|exact IH].
  cbn [List.map Check_Name]. constructor; [|exact IH].
  intros Hin. apply Hk. clear -Hin.
  apply in_map_iff in Hin as (c & Hname & Hc).
  apply list_elem_of_In, list_elem_of_omap in Hc as ([k' x'] & Hkx & Hf).
  cbn [fst snd] in Hf. destruct (parseCheck x'); [|done].
  injection Hf as <-. cbn in Hname. subst k'.
  apply list_elem_of_fmap. by exists (k, x').
Qed.

End ParserExtras.

Section ValidatorExtras.
Import policy nomad.
Variable vb : value -> string -> validator -> option error.
Variable vlb :
  gmap string value -> string -> option Z -> option Z -> validator ->
  option error.

(** X15. Whatever the block validators, [validateHorizontalPolicy]
    returns nil exactly when both bounds are present with
    [0 <= Min <= Max] and the validation of the check blocks reports
    nothing. *)
Theorem validateHorizontalPolicy_nil_iff (p : ScalingPolicy) :
  validateHorizontalPolicy vb vlb p = None <->
  (exists min max, Min p = Some min /\ Max p = Some max /\ 0 <= min <= max) /\
  from_option flat []
    (vb (index (Policy p) keyChecks) ("scaling.policy." +:+ keyChecks)
        (validateChecksHorizontal vlb)) = [].
Proof.
  split.
  - intros H. split.
    + by apply (validateHorizontalPolicy_bounds vb vlb).
    + by apply validateHorizontalPolicy_blocks.
  - intros [(min & max & Hmin & Hmax & Hle) Hblocks].
    unfold validateHorizontalPolicy. cbv zeta.
    apply ErrorOrNil_None. rewrite errorsOf_appendIfErr, Hblocks, app_nil_r.
    unfold boundsErrors. rewrite Hmin, Hmax. cbv zeta.
    destruct (min <? 0) eqn:H1; [lia|].
    destruct (min >? max) eqn:H2; [lia|].
    destruct (max <? 0) eqn:H3; [lia|]. reflexivity.
Qed.

(** X16. When [Min] is present and [Max] is absent, the bounds rules
    record only "scaling.max is missing", even for a negative [Min], and
    the reported error is that violation followed by what the validation
    of the check blocks reports. *)
Theorem validate_max_missing (p : ScalingPolicy) (min : Z) :
  Min p = Some min ->
  Max p = None ->
  boundsErrors p = Some [Errorf "scaling.max is missing"] /\
  validateHorizontalPolicy vb vlb p =
    Some (MultiError
            (Errorf "scaling.max is missing" ::
             from_option flat []
               (vb (index (Policy p) keyChecks)
                   ("scaling.policy." +:+ keyChecks)
                   (validateChecksHorizontal vlb)))).
Proof.
  intros Hmin Hmax.
  assert (Hb : boundsErrors p = Some [Errorf "scaling.max is missing"]).
  { unfold boundsErrors. by rewrite Hmin, Hmax. }
  split; [exact Hb|].
  unfold validateHorizontalPolicy. cbv zeta. rewrite Hb.
  apply ErrorOrNil_Some. by rewrite errorsOf_appendIfErr.
Qed.

(** X17. When both bounds are present, the three rules are evaluated
    independently and reported in the order: negative minimum, minimum
    above maximum, negative maximum. Not every subset can occur: a
    negative maximum is never the only violation, and a negative minimum
    together with a minimum above the maximum always comes with a
    negative maximum. *)
Theorem bounds_rules (p : ScalingPolicy) (min max : Z) :
  Min p = Some min ->
  Max p = Some max ->
  errorsOf (boundsErrors p) =
    ((if min <? 0 then [Errorf "scaling.min can't be negative"] else []) ++
     (if min >? max
      then [Errorf "scaling.min must be smaller than scaling.max"] else []) ++
     (if max <? 0 then [Errorf "scaling.max can't be negative"] else []))%list /\
  (max < 0 -> min < 0 \/ min > max) /\
  (min < 0 -> min > max -> max < 0).
Proof.
  intros Hmin Hmax. split; [|split; lia].
  unfold boundsErrors. rewrite Hmin, Hmax. cbv zeta.
  by destruct (min <? 0), (min >? max), (max <? 0).
Qed.

End ValidatorExtras.

Section ValidatorWitnesses.
Import policy nomad.

Lemma validate_max_missing_witness :
  boundsErrors (mkScalingPolicy "p" (Some (-3)) None None None None)
    = Some [Errorf "scaling.max is missing"] /\
  validate (mkScalingPolicy "p" (Some (-3)) None None None None) =
    Some (MultiError
            [Errorf "scaling.max is missing";
             Errorf "scaling.policy.check is nil"]).
Proof.
  apply (validate_max_missing validateBlocks validateLabeledBlocks
           (mkScalingPolicy "p" (Some (-3)) None None None None) (-3));
    reflexivity.
Defined.

Lemma bounds_rules_witness :
  errorsOf (boundsErrors (mkScalingPolicy "p" (Some (-1)) (Some (-2))
                            None None None)) =
    [Errorf "scaling.min can't be negative";
     Errorf "scaling.min must be smaller than scaling.max";
     Errorf "scaling.max can't be negative"] /\
  (-2 < 0 -> -1 < 0 \/ -1 > -2) /\
  (-1 < 0 -> -1 > -2 -> -2 < 0).
Proof.
  apply (bounds_rules (mkScalingPolicy "p" (Some (-1)) (Some (-2))
                         None None None) (-1) (-2));
    reflexivity.
Defined.

End ValidatorWitnesses.

(** ** The evaluation of a check *)

Section AgentExtras.
Import policy strategy agent.
Context {float64 : Type}.
Variable pm : @PluginManager float64.

(** Case analysis on the calls of [handlePolicyCheck]. *)
Ltac hpc_cases H :=
  repeat (cbn [bind call ret panic fst snd] in H;
          match type of H with
          | context [match ?x with _ => _ end] =>
              lazymatch x with
              | context [match _ with _ => _ end] => fail
              | _ => destruct x eqn:?
              end
          | context [if ?x then _ else _] =>
              lazymatch x with
              | context [match _ with _ => _ end] => fail
              | _ => destruct x eqn:?
              end
          end;
          try discriminate H).

(** X18. The action synthesized for a count outside the limits: there is
    none exactly when the count is within [[Min, Max]]; otherwise it asks
    for [Min] or [Max], always differs from the current count, carries a
    nil [Meta] and no error flag, and lies within the limits when they
    are ordered. *)
Theorem minMaxAction_spec (p : Policy) (count : Z) :
  (minMaxAction p count = None <-> Policy_Min p <= count <= Policy_Max p) /\
  (forall a, minMaxAction p count = Some a ->
     Count a <> count /\
     (Count a = Policy_Min p \/ Count a = Policy_Max p) /\
     Meta a = None /\ Error a = false /\
     (Policy_Min p <= Policy_Max p ->
      Policy_Min p <= Count a <= Policy_Max p)).
Proof.
  unfold minMaxAction.
  destruct (count <? Policy_Min p) eqn:H1;
    [|destruct (count >? Policy_Max p) eqn:H2].
  - split; [split; [done|lia]|]. intros a [= <-]. cbn. repeat split; lia || auto.
  - split; [split; [done|lia]|]. intros a [= <-]. cbn. repeat split; lia || auto.
  - split; [split; [lia|done]|]. done.
Qed.

(** X19. A synthesized action for ordered limits needs no capping:
    [CapCount(Min, Max)] returns it unchanged. Its [Meta] is nil, so
    [SetDryRun] panics on it unless [Canonicalize] ran first, after which
    the dry run records the synthesized count. *)
Theorem synthesized_action_shaping (p : Policy) (count : Z) (a : Action) :
  Policy_Min p <= Policy_Max p ->
  minMaxAction p count = Some a ->
  CapCount (Policy_Min p) (Policy_Max p) a = Ok a /\
  SetDryRun a = Panic nil_map_panic /\
  exists a',
    SetDryRun (Canonicalize a) = Ok a' /\
    Count a' = MetaValueDryRunCount /\
    mapaccess (Meta a') metaKeyDryRunCount = Some (MInt64 (Count a)).
Proof.
  intros Hle Ha. unfold minMaxAction in Ha.
  assert (Hm : Meta a = None /\ Policy_Min p <= Count a <= Policy_Max p).
  { destruct (count <? Policy_Min p) eqn:H1;
      [|destruct (count >? Policy_Max p) eqn:H2]; try done;
      injection Ha as <-; cbn; split; lia || done. }
  destruct Hm as [Hm Hin]. split; [|split].
  - apply CapCount_in_range. unfold cappedCount.
    destruct (Count a <? Policy_Min p) eqn:H1; [lia|].
    destruct (Count a >? Policy_Max p) eqn:H2; lia.
  - unfold SetDryRun. by rewrite setMeta_None.
  - eexists. split.
    + apply (SetDryRun_Some _ ∅). unfold Canonicalize. by rewrite Hm.
    + cbn [Count Meta mapaccess]. split; [done|].
      rewrite lookup_insert_eq. unfold Canonicalize. by rewrite Hm.
Qed.

(** X20. With plugins of the expected kinds behind each name and a policy
    and check that carry a target and a strategy, [handlePolicyCheck]
    never panics: every failure of a collaborator ends in a normal
    return. *)
Theorem handlePolicyCheck_no_panic (p : Policy) (c : Check) :
  Policy_Target p <> None ->
  Check_Strategy c <> None ->
  (forall name pl, Dispense pm name PluginTypeTarget = inr pl ->
                   exists t, pl = IsTarget t) ->
  (forall name pl, Dispense pm name PluginTypeAPM = inr pl ->
                   exists a, pl = IsAPM a) ->
  (forall name pl, Dispense pm name PluginTypeStrategy = inr pl ->
                   exists s, pl = IsStrategy s) ->
  exists actions, snd (handlePolicyCheck pm p c) = Ok actions.
Proof.
  intros Ht Hs HT HA HS.
  destruct (snd (handlePolicyCheck pm p c)) as [actions|msg] eqn:H; [eauto|].
  exfalso. unfold handlePolicyCheck in H.
  destruct (Policy_Target p) as [t|]; [|done].
  destruct (Check_Strategy c) as [s|]; [|done].
  hpc_cases H;
    repeat match goal with
           | E : Dispense pm _ PluginTypeTarget = inr _ |- _ =>
               apply HT in E as [? E]; try discriminate E
           | E : Dispense pm _ PluginTypeAPM = inr _ |- _ =>
               apply HA in E as [? E]; try discriminate E
           | E : Dispense pm _ PluginTypeStrategy = inr _ |- _ =>
               apply HS in E as [? E]; try discriminate E
           end.
Qed.

(** X21. Actions only come out of a complete evaluation: whenever
    [handlePolicyCheck] returns a non-empty list, every plugin was
    dispensed, the target reported a ready status, the query and the
    strategy succeeded, exactly the six calls were made, and the list is
    either the strategy's own non-empty list, unchanged, or the single
    synthesized min/max action when the strategy returned none. *)
Theorem actions_need_full_evaluation (p : Policy) (c : Check)
    (actions : list Action) :
  snd (handlePolicyCheck pm p c) = Ok actions ->
  actions <> [] ->
  exists pTarget cStrategy targetInst apmInst strategyInst status value resp,
    Policy_Target p = Some pTarget /\
    Check_Strategy c = Some cStrategy /\
    Dispense pm (Target_Name pTarget) PluginTypeTarget
      = inr (IsTarget targetInst) /\
    Dispense pm (Check_Source c) PluginTypeAPM = inr (IsAPM apmInst) /\
    Dispense pm (Strategy_Name cStrategy) PluginTypeStrategy
      = inr (IsStrategy strategyInst) /\
    target_Status targetInst (Target_Config pTarget) = inr status /\
    Status_Ready status = true /\
    apm_Query apmInst (Check_Query c) = inr value /\
    strategy_Run strategyInst
      (mkRunRequest (Policy_ID p) (Status_Count status) value
         (Strategy_Config cStrategy)) = inr resp /\
    (actions = Actions resp \/
     Actions resp = [] /\
     exists a, minMaxAction p (Status_Count status) = Some a /\
               actions = [a]) /\
    fst (handlePolicyCheck pm p c) =
      [EvDispense (Target_Name pTarget) PluginTypeTarget;
       EvDispense (Check_Source c) PluginTypeAPM;
       EvDispense (Strategy_Name cStrategy) PluginTypeStrategy;
       EvStatus (Target_Config pTarget);
       EvQuery (Check_Query c);
       EvRun (mkRunRequest (Policy_ID p) (Status_Count status) value
                (Strategy_Config cStrategy))].
Proof.
  intros H Hne. unfold handlePolicyCheck in *.
  destruct (Policy_Target p) as [t|]; [|done].
  destruct (Check_Strategy c) as [s|]; [|done].
  hpc_cases H; cbn [bind call ret panic fst snd] in H;
    injection H as <-; try done;
    apply negb_false_iff in Heqb;
    eexists t, s, _, _, _, _, _, _;
    (split; [reflexivity|]); (split; [reflexivity|]);
    (split; [eassumption|]); (split; [reflexivity|]);
    (split; [eassumption|]); (split; [eassumption|]);
    (split; [eassumption|]); (split; [eassumption|]);
    (split; [eassumption|]);
    (split;
     [| repeat (cbn [bind call ret panic fst snd app];
                match goal with
                | E : ?x = _ |- context [?x] => rewrite E
                end);
        cbn [negb bind call ret panic fst snd app]; reflexivity ]).
  - right. split; [exact Heql|]. eauto.
  - left. by rewrite Heql.
Qed.

(** X22. When the evaluation succeeds and the strategy returns at least
    one action, [handlePolicyCheck] returns the strategy's list as it is:
    nothing is capped, even counts outside the limits, and no min/max
    action is added, even when the current count is outside the limits. *)
Theorem strategy_actions_verbatim (p : Policy) (c : Check) (pTarget : Target)
    (cStrategy : Strategy) (targetInst : TargetPlugin)
    (apmInst : @APMPlugin float64) (strategyInst : @StrategyPlugin float64)
    (count : Z) (value : float64) (a : Action) (actions : list Action) :
  Policy_Target p = Some pTarget ->
  Check_Strategy c = Some cStrategy ->
  Dispense pm (Target_Name pTarget) PluginTypeTarget
    = inr (IsTarget targetInst) ->
  Dispense pm (Check_Source c) PluginTypeAPM = inr (IsAPM apmInst) ->
  Dispense pm (Strategy_Name cStrategy) PluginTypeStrategy
    = inr (IsStrategy strategyInst) ->
  target_Status targetInst (Target_Config pTarget)
    = inr (mkStatus count true) ->
  apm_Query apmInst (Check_Query c) = inr value ->
  strategy_Run strategyInst
    (mkRunRequest (Policy_ID p) count value (Strategy_Config cStrategy))
    = inr (mkRunResponse (a :: actions)) ->
  snd (handlePolicyCheck pm p c) = Ok (a :: actions).
Proof.
  intros Ht Hs Hdt Hda Hds Hst Hq Hrun.
  unfold handlePolicyCheck. rewrite Ht, Hs.
  unfold call, bind. rewrite Hdt, Hda, Hds, Hst.
  cbn [Status_Ready negb Status_Count]. by rewrite Hq, Hrun.
Qed.

(** X23. When the target's status cannot be fetched or the target is not
    ready, the check ends with no action after the three dispenses and
    the status call: the APM is not queried and the strategy is not
    run. *)
Theorem unavailable_target_skips (p : Policy) (c : Check) (pTarget : Target)
    (cStrategy : Strategy) (targetInst : TargetPlugin)
    (apmInst : @APMPlugin float64) (strategyInst : @StrategyPlugin float64) :
  Policy_Target p = Some pTarget ->
  Check_Strategy c = Some cStrategy ->
  Dispense pm (Target_Name pTarget) PluginTypeTarget
    = inr (IsTarget targetInst) ->
  Dispense pm (Check_Source c) PluginTypeAPM = inr (IsAPM apmInst) ->
  Dispense pm (Strategy_Name cStrategy) PluginTypeStrategy
    = inr (IsStrategy strategyInst) ->
  match target_Status targetInst (Target_Config pTarget) with
  | inl _ => True
  | inr status => Status_Ready status = false
  end ->
  handlePolicyCheck pm p c =
    ([EvDispense (Target_Name pTarget) PluginTypeTarget;
      EvDispense (Check_Source c) PluginTypeAPM;
      EvDispense (Strategy_Name cStrategy) PluginTypeStrategy;
      EvStatus (Target_Config pTarget)],
     Ok []).
Proof.
  intros Ht Hs Hdt Hda Hds Hst.
  unfold handlePolicyCheck. rewrite Ht, Hs.
  unfold call, bind. rewrite Hdt, Hda, Hds.
  destruct (target_Status targetInst (Target_Config pTarget)) as [err|status];
    [reflexivity|].
  by rewrite Hst.
Qed.

(** X24. The calls of one evaluation are made in a fixed order, each at
    most once: the calls made are a prefix of target dispense, APM
    dispense, strategy dispense, status and query, or all five followed
    by one strategy run whose request carries the policy's ID and the
    strategy's configuration. *)
Theorem handlePolicyCheck_call_order (p : Policy) (c : Check)
    (pTarget : Target) (cStrategy : Strategy) :
  Policy_Target p = Some pTarget ->
  Check_Strategy c = Some cStrategy ->
  (exists rest,
     (fst (handlePolicyCheck pm p c) ++ rest)%list =
       [EvDispense (Target_Name pTarget) PluginTypeTarget;
        EvDispense (Check_Source c) PluginTypeAPM;
        EvDispense (Strategy_Name cStrategy) PluginTypeStrategy;
        EvStatus (Target_Config pTarget);
        EvQuery (Check_Query c)]) \/
  (exists count value,
     fst (handlePolicyCheck pm p c) =
       [EvDispense (Target_Name pTarget) PluginTypeTarget;
        EvDispense (Check_Source c) PluginTypeAPM;
        EvDispense (Strategy_Name cStrategy) PluginTypeStrategy;
        EvStatus (Target_Config pTarget);
        EvQuery (Check_Query c);
        EvRun (mkRunRequest (Policy_ID p) count value
                 (Strategy_Config cStrategy))]).
Proof.
  intros Ht Hs. unfold handlePolicyCheck. rewrite Ht, Hs.
  repeat (cbn [bind call ret panic fst snd app];
          match goal with
          | |- context [match ?x with _ => _ end] =>
              lazymatch x with
              | context [match _ with _ => _ end] => fail
              | _ => destruct x eqn:?
              end
          | |- context [if ?x then _ else _] =>
              lazymatch x with
              | context [match _ with _ => _ end] => fail
              | _ => destruct x eqn:?
              end
          end);
    cbn [bind call ret panic fst snd app];
    first [ left; eexists; reflexivity
          | right; eexists _, _; reflexivity ].
Qed.

(** X25. The loop over the checks of a policy collects the actions of the
    checks in order: when every check returns normally, the loop makes
    the calls of the checks one after the other and returns the actions
    it started with followed by those of each check. *)
Theorem handleChecks_collects (p : Policy) (cs : list Check)
    (results : list (list event * list Action)) (actions : list Action) :
  Forall2 (fun c r => handlePolicyCheck pm p c = (fst r, Ok (snd r)))
          cs results ->
  handleChecks pm p cs actions =
    (List.concat (List.map fst results),
     Ok (actions ++ List.concat (List.map snd results))%list).
Proof.
  intros H. revert actions.
  induction H as [|c r cs results Hc _ IH]; intros actions.
  - cbn. by rewrite app_nil_r.
  - cbn [handleChecks List.map List.concat]. rewrite Hc. unfold bind.
    rewrite IH. by rewrite app_assoc.
Qed.

(** X26. One check with a nil [Strategy] takes the whole policy down: the
    loop over the checks panics, in that check or in an earlier one, and
    no action is returned. *)
Theorem nil_strategy_panics_policy (p : Policy) (cs : list Check)
    (c : Check) (actions : list Action) :
  In c cs ->
  Check_Strategy c = None ->
  exists msg, snd (handleChecks pm p cs actions) = Panic msg.
Proof.
  intros Hin Hs. revert actions.
  induction cs as [|c' cs IH]; intros actions; [done|].
  cbn [handleChecks]. unfold bind.
  destruct (handlePolicyCheck pm p c') as [t [new|msg]] eqn:Hc'.
  - destruct Hin as [->|Hin].
    + by rewrite handlePolicyCheck_nil_strategy in Hc'.
    + destruct (IH Hin (actions ++ new)%list) as [msg Hmsg].
      exists msg. destruct (handleChecks pm p cs (actions ++ new)%list).
      exact Hmsg.
  - by exists msg.
Qed.

End AgentExtras.

Section AgentWitnesses.
Import policy strategy agent.

Lemma synthesized_action_shaping_witness :
  CapCount 2 10 (mkAction 2 (belowLimitReason 1 2) false None)
    = Ok (mkAction 2 (belowLimitReason 1 2) false None) /\
  SetDryRun (mkAction 2 (belowLimitReason 1 2) false None)
    = Panic nil_map_panic /\
  exists a',
    SetDryRun (Canonicalize (mkAction 2 (belowLimitReason 1 2) false None))
      = Ok a' /\
    Count a' = MetaValueDryRunCount /\
    mapaccess (Meta a') metaKeyDryRunCount = Some (MInt64 2).
Proof.
  apply (synthesized_action_shaping samples.policy_2_10 1
           (mkAction 2 (belowLimitReason 1 2) false None)).
  - simpl. lia.
  - reflexivity.
Defined.

Lemma handlePolicyCheck_no_panic_witness :
  exists actions,
    snd (handlePolicyCheck (samples.fixedManager 5 false 80 [])
           samples.policy_2_10 samples.cpuCheck) = Ok actions.
Proof.
  apply (handlePolicyCheck_no_panic (samples.fixedManager 5 false 80 [])
           samples.policy_2_10 samples.cpuCheck).
  - simpl. discriminate.
  - simpl. discriminate.
  - intros name pl H. injection H as <-. eauto.
  - intros name pl H. injection H as <-. eauto.
  - intros name pl H. injection H as <-. eauto.
Defined.

Lemma actions_need_full_evaluation_witness :
  exists status value resp,
    target_Status (samples.fixedTarget 1 true) (Some {[ "Job" := "web" ]})
      = inr status /\
    Status_Ready status = true /\
    apm_Query (samples.fixedAPM 80) "avg(cpu)" = inr value /\
    strategy_Run (samples.fixedStrategy [])
      (mkRunRequest "p" (Status_Count status) value None) = inr resp /\
    Actions resp = [].
Proof.
  destruct (actions_need_full_evaluation (samples.fixedManager 1 true 80 [])
              samples.policy_2_10 samples.cpuCheck
              [mkAction 2 (belowLimitReason 1 2) false None])
    as (pTarget & cStrategy & targetInst & apmInst & strategyInst & status
        & value & resp & Ht & Hs & Hdt & Hda & Hds & Hst & Hready & Hq
        & Hrun & Hacts & _).
  - reflexivity.
  - discriminate.
  - injection Ht as <-. injection Hs as <-.
    injection Hdt as <-. injection Hda as <-. injection Hds as <-.
    exists status, value, resp. repeat split; try assumption.
    destruct Hacts as [Hacts|[Hnil _]]; [|exact Hnil].
    injection Hrun as <-. reflexivity.
Defined.

Lemma strategy_actions_verbatim_witness :
  snd (handlePolicyCheck
         (samples.fixedManager 12 true 80
            [mkAction 15 "scale up" false None])
         samples.policy_2_10 samples.cpuCheck)
  = Ok [mkAction 15 "scale up" false None].
Proof.
  apply (strategy_actions_verbatim
           (samples.fixedManager 12 true 80
              [mkAction 15 "scale up" false None])
           samples.policy_2_10 samples.cpuCheck
           (mkTarget "nomad" (Some {[ "Job" := "web" ]}))
           (mkStrategy "target-value" None)
           (samples.fixedTarget 12 true) (samples.fixedAPM 80)
           (samples.fixedStrategy [mkAction 15 "scale up" false None])
           12 80); reflexivity.
Defined.

Lemma unavailable_target_skips_witness :
  handlePolicyCheck (samples.fixedManager 1 false 80 [])
    samples.policy_2_10 samples.cpuCheck =
    ([EvDispense "nomad" PluginTypeTarget;
      EvDispense "prometheus" PluginTypeAPM;
      EvDispense "target-value" PluginTypeStrategy;
      EvStatus (Some {[ "Job" := "web" ]})],
     Ok []).
Proof.
  apply (unavailable_target_skips (samples.fixedManager 1 false 80 [])
           samples.policy_2_10 samples.cpuCheck
           (mkTarget "nomad" (Some {[ "Job" := "web" ]}))
           (mkStrategy "target-value" None)
           (samples.fixedTarget 1 false) (samples.fixedAPM 80)
           (samples.fixedStrategy [])); reflexivity.
Defined.

Lemma handlePolicyCheck_call_order_witness :
  (exists rest,
     (fst (handlePolicyCheck (samples.fixedManager 1 false 80 [])
             samples.policy_2_10 samples.cpuCheck) ++ rest)%list =
       [EvDispense "nomad" PluginTypeTarget;
        EvDispense "prometheus" PluginTypeAPM;
        EvDispense "target-value" PluginTypeStrategy;
        EvStatus (Some {[ "Job" := "web" ]});
        EvQuery "avg(cpu)"]) \/
  (exists count value,
     fst (handlePolicyCheck (samples.fixedManager 1 false 80 [])
            samples.policy_2_10 samples.cpuCheck) =
       [EvDispense "nomad" PluginTypeTarget;
        EvDispense "prometheus" PluginTypeAPM;
        EvDispense "target-value" PluginTypeStrategy;
        EvStatus (Some {[ "Job" := "web" ]});
        EvQuery "avg(cpu)";
        EvRun (mkRunRequest "p" count value None)]).
Proof.
  apply (handlePolicyCheck_call_order (samples.fixedManager 1 false 80 [])
           samples.policy_2_10 samples.cpuCheck
           (mkTarget "nomad" (Some {[ "Job" := "web" ]}))
           (mkStrategy "target-value" None)); reflexivity.
Defined.

Lemma handleChecks_collects_witness :
  snd (handleChecks (samples.fixedManager 1 true 80 []) samples.policy_2_10
         [samples.cpuCheck; samples.cpuCheck] [])
  = Ok [mkAction 2 (belowLimitReason 1 2) false None;
        mkAction 2 (belowLimitReason 1 2) false None].
Proof.
  rewrite (handleChecks_collects (samples.fixedManager 1 true 80 [])
             samples.policy_2_10 [samples.cpuCheck; samples.cpuCheck]
             [(fst (handlePolicyCheck (samples.fixedManager 1 true 80 [])
                      samples.policy_2_10 samples.cpuCheck),
               [mkAction 2 (belowLimitReason 1 2) false None]);
              (fst (handlePolicyCheck (samples.fixedManager 1 true 80 [])
                      samples.policy_2_10 samples.cpuCheck),
               [mkAction 2 (belowLimitReason 1 2) false None])] []).
  - reflexivity.
  - repeat constructor.
Defined.

Lemma nil_strategy_panics_policy_witness :
  exists msg,
    snd (handleChecks (samples.fixedManager 1 true 80 []) samples.policy_2_10
           [samples.cpuCheck; mkCheck "mem" "prometheus" "avg(mem)" None] [])
    = Panic msg.
Proof.
  apply (nil_strategy_panics_policy (samples.fixedManager 1 true 80 [])
           samples.policy_2_10
           [samples.cpuCheck; mkCheck "mem" "prometheus" "avg(mem)" None]
           (mkCheck "mem" "prometheus" "avg(mem)" None) []).
  - simpl. right. left. reflexivity.
  - reflexivity.
Defined.

End AgentWitnesses.

(** ** The Nomad client configuration *)

Section ValidatedSynthesis.
Import policy strategy agent.

(** X27. For a policy parsed from a document that passes validation,
    whatever the block validators, an action synthesized for a count
    outside the limits asks for a count within [[Min, Max]] that is not
    negative, hence never the dry-run sentinel. *)
Theorem validated_synthesis_nonnegative
    (vb : value -> string -> nomad.validator -> option error)
    (vlb : gmap string value -> string -> option Z -> option Z ->
           nomad.validator -> option error)
    (ParseDuration : string -> Z) (doc : nomad.ScalingPolicy)
    (count : Z) (a : Action) :
  nomad.validateHorizontalPolicy vb vlb doc = None ->
  minMaxAction (nomad.parsePolicy ParseDuration doc) count = Some a ->
  0 <= Count a /\
  Policy_Min (nomad.parsePolicy ParseDuration doc) <= Count a
    <= Policy_Max (nomad.parsePolicy ParseDuration doc) /\
  Count a <> MetaValueDryRunCount.
Proof.
  intros Hv Ha.
  destruct (validateHorizontalPolicy_bounds _ _ _ Hv)
    as (min & max & Hmin & Hmax & Hle).
  assert (Hpmin : Policy_Min (nomad.parsePolicy ParseDuration doc) = min)
    by (unfold nomad.parsePolicy; cbn [Policy_Min]; by rewrite Hmin).
  assert (Hpmax : Policy_Max (nomad.parsePolicy ParseDuration doc) = max)
    by (unfold nomad.parsePolicy; cbn [Policy_Max]; by rewrite Hmax).
  unfold minMaxAction in Ha. rewrite Hpmin, Hpmax in *.
  unfold MetaValueDryRunCount.
  destruct (count <? min) eqn:H1; [|destruct (count >? max) eqn:H2].
  - injection Ha as <-. cbn [Count]. lia.
  - injection Ha as <-. cbn [Count]. lia.
  - discriminate Ha.
Qed.

Lemma validated_synthesis_nonnegative_witness :
  0 <= 1 /\
  Policy_Min (nomad.parsePolicy (fun _ => 0) samples.doc_empty_query) <= 1
    <= Policy_Max (nomad.parsePolicy (fun _ => 0) samples.doc_empty_query) /\
  1 <> MetaValueDryRunCount.
Proof.
  apply (validated_synthesis_nonnegative
           nomad.validateBlocks nomad.validateLabeledBlocks (fun _ => 0)
           samples.doc_empty_query 0
           (mkAction 1 (belowLimitReason 0 1) false None)).
  - vm_compute. reflexivity.
  - reflexivity.
Defined.

End ValidatedSynthesis.

Section ClientExtras.
Import client.
Context {HttpBasicAuth Client : Type}.
Variable HTTPAuthFromString : string -> option HttpBasicAuth.

Lemma setTLS_Some (s : string) (set : TLSConfig -> TLSConfig)
    (cfg : @Config HttpBasicAuth) (t : TLSConfig) :
  cfg_TLSConfig cfg = Some t ->
  setTLS s set cfg =
    Ok (mkConfig (cfg_Address cfg) (cfg_Region cfg) (cfg_Namespace cfg)
          (cfg_SecretID cfg) (cfg_HttpAuth cfg)
          (Some (if decide (s = "") then t else set t))).
Proof.
  intros Ht. unfold setTLS. destruct (decide (s = "")); [|by rewrite Ht].
  destruct cfg; cbn in *. by subst.
Qed.

(** X28. With no setting given (every string empty, [SkipVerify] false)
    the merge returns the default configuration unchanged and touches no
    pointer: it succeeds even when the default has a nil [TLSConfig], and
    [generateNomadClient] hands the default configuration to
    [NewClient]. *)
Theorem mergeNomadConfig_no_settings (cfg : @Config HttpBasicAuth)
    (NewClient : @Config HttpBasicAuth -> string + Client) :
  mergeNomadConfig HTTPAuthFromString
    (mkNomadConfig "" "" "" "" "" "" "" "" "" "" false) cfg = Ok cfg /\
  generateNomadClient HTTPAuthFromString cfg NewClient
    (mkNomadConfig "" "" "" "" "" "" "" "" "" "" false) =
    match NewClient cfg with
    | inl err =>
        Ok (inl (Errorf ("failed to instantiate Nomad client: " +:+ err)))
    | inr client => Ok (inr client)
    end.
Proof.
  assert (H : mergeNomadConfig HTTPAuthFromString
                (mkNomadConfig "" "" "" "" "" "" "" "" "" "" false) cfg
              = Ok cfg) by by destruct cfg.
  split; [exact H|]. unfold generateNomadClient. by rewrite H.
Qed.

Lemma mergeNomadConfig_Some (n : NomadConfig) (address region namespace
    secretID : string) (auth : option HttpBasicAuth) (t : TLSConfig) :
  mergeNomadConfig HTTPAuthFromString n
    (mkConfig address region namespace secretID auth (Some t)) =
    Ok (mkConfig
          (orDefault (Address n) address)
          (orDefault (Region n) region)
          (orDefault (Namespace n) namespace)
          (orDefault (Token n) secretID)
          (if decide (HTTPAuth n = "") then auth
           else HTTPAuthFromString (HTTPAuth n))
          (Some (mkTLSConfig
                   (orDefault (CACert n) (TLS_CACert t))
                   (orDefault (CAPath n) (TLS_CAPath t))
                   (orDefault (ClientCert n) (TLS_ClientCert t))
                   (orDefault (ClientKey n) (TLS_ClientKey t))
                   (orDefault (TLSServerName n) (TLS_TLSServerName t))
                   (TLS_Insecure t || SkipVerify n)))).
Proof.
  unfold mergeNomadConfig. cbv zeta.
  cbn [cfg_TLSConfig cfg_Address cfg_Region cfg_Namespace cfg_SecretID
       cfg_HttpAuth].
  repeat (erewrite setTLS_Some by reflexivity; cbn [rbind cfg_TLSConfig
            cfg_Address cfg_Region cfg_Namespace cfg_SecretID cfg_HttpAuth]).
  unfold orDefault. destruct t as [a b c d e i]. cbn.
  destruct (decide (CACert n = "")), (decide (CAPath n = "")),
    (decide (ClientCert n = "")), (decide (ClientKey n = "")),
    (decide (TLSServerName n = "")), (SkipVerify n), i; reflexivity.
Qed.

(** X29. When the default configuration has a [TLSConfig], the merge
    succeeds and every field is the agent's setting when that is not
    empty and the default otherwise; the token goes to [SecretID], the
    HTTP credentials come from [HTTPAuthFromString], and [Insecure] is
    the default or-ed with [SkipVerify]: the agent can switch
    verification off but never back on. *)
Theorem mergeNomadConfig_fields (n : NomadConfig)
    (cfg : @Config HttpBasicAuth) (t : TLSConfig) :
  cfg_TLSConfig cfg = Some t ->
  mergeNomadConfig HTTPAuthFromString n cfg =
    Ok (mkConfig
          (orDefault (Address n) (cfg_Address cfg))
          (orDefault (Region n) (cfg_Region cfg))
          (orDefault (Namespace n) (cfg_Namespace cfg))
          (orDefault (Token n) (cfg_SecretID cfg))
          (if decide (HTTPAuth n = "") then cfg_HttpAuth cfg
           else HTTPAuthFromString (HTTPAuth n))
          (Some (mkTLSConfig
                   (orDefault (CACert n) (TLS_CACert t))
                   (orDefault (CAPath n) (TLS_CAPath t))
                   (orDefault (ClientCert n) (TLS_ClientCert t))
                   (orDefault (ClientKey n) (TLS_ClientKey t))
                   (orDefault (TLSServerName n) (TLS_TLSServerName t))
                   (TLS_Insecure t || SkipVerify n)))).
Proof.
  intros Ht. destruct cfg as [address region namespace secretID auth tls].
  cbn [cfg_TLSConfig] in Ht. subst tls.
  cbn [cfg_Address cfg_Region cfg_Namespace cfg_SecretID cfg_HttpAuth].
  apply mergeNomadConfig_Some.
Qed.

(** X30. Merging is idempotent: applying the same settings to an already
    merged configuration changes nothing, and a merge that panics (a TLS
    setting with a nil [TLSConfig]) panics the same way. *)
Theorem mergeNomadConfig_idempotent (n : NomadConfig)
    (cfg : @Config HttpBasicAuth) :
  (cfg1 <-r mergeNomadConfig HTTPAuthFromString n cfg ;
   mergeNomadConfig HTTPAuthFromString n cfg1)
  = mergeNomadConfig HTTPAuthFromString n cfg.
Proof.
  destruct cfg as [address region namespace secretID auth [t|]].
  - rewrite mergeNomadConfig_Some. cbn [rbind].
    rewrite mergeNomadConfig_Some.
    f_equal. unfold orDefault. cbn.
    destruct (decide (Address n = "")), (decide (Region n = "")),
      (decide (Namespace n = "")), (decide (Token n = "")),
      (decide (HTTPAuth n = "")), (decide (CACert n = "")),
      (decide (CAPath n = "")), (decide (ClientCert n = "")),
      (decide (ClientKey n = "")), (decide (TLSServerName n = ""));
      by rewrite <- orb_assoc, orb_diag.
  - unfold mergeNomadConfig, setTLS. cbv zeta. cbn [cfg_TLSConfig].
    destruct (decide (CACert n = "")), (decide (CAPath n = "")),
      (decide (ClientCert n = "")), (decide (ClientKey n = "")),
      (decide (TLSServerName n = "")), (SkipVerify n) eqn:Hsv;
      cbn [rbind cfg_TLSConfig]; try reflexivity.
    unfold orDefault. cbn.
    destruct (decide (Address n = "")), (decide (Region n = "")),
      (decide (Namespace n = "")), (decide (Token n = "")),
      (decide (HTTPAuth n = "")); reflexivity.
Qed.

End ClientExtras.

Section ClientWitnesses.
Import client.

Lemma mergeNomadConfig_fields_witness :
  mergeNomadConfig (fun s : string => Some s)
    (mkNomadConfig "http://nomad:4646" "" "" "secret" "" "" "" "" "" "" false)
    (mkConfig "http://127.0.0.1:4646" "global" "default" "" None
       (Some (mkTLSConfig "" "" "" "" "" true))) =
    Ok (mkConfig "http://nomad:4646" "global" "default" "secret" None
          (Some (mkTLSConfig "" "" "" "" "" true))).
Proof.
  rewrite (mergeNomadConfig_fields (fun s : string => Some s)
             (mkNomadConfig "http://nomad:4646" "" "" "secret" "" "" "" ""
                "" "" false)
             (mkConfig "http://127.0.0.1:4646" "global" "default" "" None
                (Some (mkTLSConfig "" "" "" "" "" true)))
             (mkTLSConfig "" "" "" "" "" true)); reflexivity.
Defined.

End ClientWitnesses.
